(** * Neuro-AI: the renderer store and the main-process backend supervision

    A shallow embedding of the Redux slices of the renderer
    (store/slices/analysisSlice.ts, store/slices/systemSlice.ts), of the
    start-up check of renderer/App.tsx and of the Electron main process
    (startBackend, the whenReady handler, the before-quit handler and the
    backend:status IPC handler). The analysis dispatcher and the result
    aggregator of the specification, whose code is not among these
    sources, are modelled from the specification. The definitions come
    first, the properties of the specification after them.

    Conventions.
    - A reducer written with Immer ("mutate the draft") is a pure function
      from the old state and the action payload to the new state.
    - A JavaScript [number] that the code only stores and hands on
      (file size, confidence, progress) is an IEEE double, here [float].
      [currentImageIndex] is compared and decremented against
      [images.length]; it is an integer [Z].
    - A JavaScript string is a [string]. *)

From Stdlib Require Import ZArith Floats.
From stdpp Require Import base tactics option list strings gmap fin_maps.

Local Open Scope Z_scope.

(** ** store/slices/analysisSlice.ts *)

Module ImageFile.
Record t := mk {
  id : string;
  name : string;
  path : string;
  size : float;
  type : string;
  dataUrl : option string;
  preview : option string
}.
End ImageFile.

Inductive ModelType := brain | chest.
Inductive AnalysisType := auto_type | brain_type | chest_type.
Inductive Nivel := ALTO | MEDIO | BAJO.

Module MedicalInfo.
Record t := mk {
  titulo : string;
  descripcion : string;
  recomendaciones : string;
  nivel : Nivel;
  urgencia : string
}.
End MedicalInfo.

Module AnalysisResult.
Record t := mk {
  id : string;
  fileName : string;
  modelType : ModelType;
  prediction : string;
  confidence : float;
  allPredictions : list (string * float);
  medicalInfo : MedicalInfo.t;
  timestamp : string;
  success : bool;
  error : option string
}.
End AnalysisResult.

Record AnalysisState := mkAnalysisState {
  images : list ImageFile.t;
  currentImageIndex : Z;
  results : list AnalysisResult.t;
  isAnalyzing : bool;
  analysisProgress : float;
  currentAnalysisType : AnalysisType;
  batchMode : bool;
  selectedResults : list string
}.

Definition initialState : AnalysisState :=
  {| images := [];
     currentImageIndex := 0;
     results := [];
     isAnalyzing := false;
     analysisProgress := 0%float;
     currentAnalysisType := auto_type;
     batchMode := false;
     selectedResults := [] |}.

(** [images.length] as the integer the index is compared with. *)
Definition images_length (st : AnalysisState) : Z :=
  Z.of_nat (length (images st)).

Definition setImages (st : AnalysisState) (payload : list ImageFile.t)
  : AnalysisState :=
  {| images := payload;
     currentImageIndex := 0;
     results := results st;
     isAnalyzing := isAnalyzing st;
     analysisProgress := analysisProgress st;
     currentAnalysisType := currentAnalysisType st;
     batchMode := batchMode st;
     selectedResults := selectedResults st |}.

Definition addImages (st : AnalysisState) (payload : list ImageFile.t)
  : AnalysisState :=
  {| images := images st ++ payload;
     currentImageIndex := currentImageIndex st;
     results := results st;
     isAnalyzing := isAnalyzing st;
     analysisProgress := analysisProgress st;
     currentAnalysisType := currentAnalysisType st;
     batchMode := batchMode st;
     selectedResults := selectedResults st |}.

(** [img => img.id !== action.payload] *)
Definition keeps_image (payload : string) (img : ImageFile.t) : bool :=
  negb (String.eqb (ImageFile.id img) payload).

Definition removeImage (st : AnalysisState) (payload : string)
  : AnalysisState :=
  let images' := List.filter (keeps_image payload) (images st) in
  let index' :=
    if (Z.of_nat (length images') <=? currentImageIndex st)
       && (0 <? currentImageIndex st)
    then currentImageIndex st - 1
    else currentImageIndex st in
  {| images := images';
     currentImageIndex := index';
     results := results st;
     isAnalyzing := isAnalyzing st;
     analysisProgress := analysisProgress st;
     currentAnalysisType := currentAnalysisType st;
     batchMode := batchMode st;
     selectedResults := selectedResults st |}.

Definition addResult (st : AnalysisState) (payload : AnalysisResult.t)
  : AnalysisState :=
  {| images := images st;
     currentImageIndex := currentImageIndex st;
     results := results st ++ [payload];
     isAnalyzing := isAnalyzing st;
     analysisProgress := analysisProgress st;
     currentAnalysisType := currentAnalysisType st;
     batchMode := batchMode st;
     selectedResults := selectedResults st |}.

Definition setIsAnalyzing (st : AnalysisState) (payload : bool)
  : AnalysisState :=
  {| images := images st;
     currentImageIndex := currentImageIndex st;
     results := results st;
     isAnalyzing := payload;
     analysisProgress :=
       if negb payload then 0%float else analysisProgress st;
     currentAnalysisType := currentAnalysisType st;
     batchMode := batchMode st;
     selectedResults := selectedResults st |}.

(** The index designates an image of the list, or is 0 on the empty list. *)
Definition valid_position (st : AnalysisState) : Prop :=
  (0 <= currentImageIndex st < images_length st)
  \/ (currentImageIndex st = 0 /\ images_length st = 0).

(** How many images carry the identifier [i]. *)
Definition id_count (i : string) (imgs : list ImageFile.t) : nat :=
  length (List.filter (fun img => String.eqb (ImageFile.id img) i) imgs).

(** An image that carries only an identifier, for concrete states. *)
Definition image_with_id (i : string) : ImageFile.t :=
  ImageFile.mk i "" "" 0%float "" None None.

(** Three images that share the identifier "a", the last one selected. *)
Definition shared_id_state : AnalysisState :=
  {| images := [image_with_id "a"; image_with_id "a"; image_with_id "a"];
     currentImageIndex := 2;
     results := [];
     isAnalyzing := false;
     analysisProgress := 0%float;
     currentAnalysisType := auto_type;
     batchMode := false;
     selectedResults := [] |}.

(** Two images with distinct identifiers, the last one selected. *)
Definition two_image_state : AnalysisState :=
  {| images := [image_with_id "a"; image_with_id "b"];
     currentImageIndex := 1;
     results := [];
     isAnalyzing := false;
     analysisProgress := 0%float;
     currentAnalysisType := auto_type;
     batchMode := false;
     selectedResults := [] |}.


(** ** store/slices/systemSlice.ts *)

Module BackendStatus.
Record t := mk {
  isRunning : bool;
  modelsLoaded : bool;
  port : option float
}.
End BackendStatus.

Module AppInfo.
Record t := mk {
  name : string;
  version : string;
  platform : string;
  arch : string
}.
End AppInfo.

Module NotificationType.
Inductive t := info | success | warning | error.
End NotificationType.

Module Notification.
Record t := mk {
  id : string;
  type : NotificationType.t;
  message : string;
  timestamp : string
}.
End Notification.

(** The payload of [addNotification]: a notification without [id] and
    [timestamp]. *)
Module NotificationPayload.
Record t := mk {
  type : NotificationType.t;
  message : string
}.
End NotificationPayload.

(** What the reducer reads from the clock: [Date.now().toString()] and
    [new Date().toISOString()]. *)
Module Clock.
Record t := mk {
  now : string;
  iso : string
}.
End Clock.

Record SystemState := mkSystemState {
  backendStatus : BackendStatus.t;
  appInfo : option AppInfo.t;
  notifications : list Notification.t;
  isFullscreen : bool;
  isDarkMode : bool
}.

Definition systemInitialState : SystemState :=
  {| backendStatus := BackendStatus.mk false false None;
     appInfo := None;
     notifications := [];
     isFullscreen := false;
     isDarkMode := false |}.

Definition setBackendStatus (st : SystemState) (payload : BackendStatus.t)
  : SystemState :=
  {| backendStatus := payload;
     appInfo := appInfo st;
     notifications := notifications st;
     isFullscreen := isFullscreen st;
     isDarkMode := isDarkMode st |}.

(** [arr.slice(-n)] for a positive [n]: the last [n] elements, the whole
    array when it has fewer. *)
Definition slice_last {A} (n : nat) (l : list A) : list A :=
  drop (length l - n)%nat l.

(** [{...action.payload, id: Date.now().toString(),
      timestamp: new Date().toISOString()}] *)
Definition stamped (payload : NotificationPayload.t) (clock : Clock.t)
  : Notification.t :=
  {| Notification.id := Clock.now clock;
     Notification.type := NotificationPayload.type payload;
     Notification.message := NotificationPayload.message payload;
     Notification.timestamp := Clock.iso clock |}.

Definition addNotification (st : SystemState)
    (payload : NotificationPayload.t) (clock : Clock.t) : SystemState :=
  let pushed := notifications st ++ [stamped payload clock] in
  {| backendStatus := backendStatus st;
     appInfo := appInfo st;
     notifications :=
       if (10 <? length pushed)%nat then slice_last 10 pushed else pushed;
     isFullscreen := isFullscreen st;
     isDarkMode := isDarkMode st |}.

Definition clearNotifications (st : SystemState) : SystemState :=
  {| backendStatus := backendStatus st;
     appInfo := appInfo st;
     notifications := [];
     isFullscreen := isFullscreen st;
     isDarkMode := isDarkMode st |}.

(** A run of [addNotification] actions, each with the clock reading of
    its dispatch. *)
Definition addNotifications (st : SystemState)
    (adds : list (NotificationPayload.t * Clock.t)) : SystemState :=
  fold_left (fun s a => addNotification s a.1 a.2) adds st.

(** A warning dispatched at a fixed clock reading, and a state that
    already holds three notifications, for concrete runs. *)
Definition eleventh_hour : NotificationPayload.t * Clock.t :=
  (NotificationPayload.mk NotificationType.warning "backend offline",
   Clock.mk "1700000000000" "2023-11-14T22:13:20.000Z").

Definition three_notifications : SystemState :=
  addNotifications systemInitialState
    (replicate 3 (NotificationPayload.mk NotificationType.info "ready",
                  Clock.mk "1699999999000" "2023-11-14T22:13:19.000Z")).

(** ** renderer/App.tsx: the start-up check *)

(** The answer of [checkBackendStatus()] as far as [initializeApp] reads
    it: [status], and [models] with its two flags when present. *)
Module HealthModels.
Record t := mk {
  brain : bool;
  chest : bool
}.
End HealthModels.

Module HealthAnswer.
Record t := mk {
  status : string;
  models : option HealthModels.t
}.
End HealthAnswer.

(** [backendStatus.models?.brain || backendStatus.models?.chest || false] *)
Definition models_loaded (answer : HealthAnswer.t) : bool :=
  match HealthAnswer.models answer with
  | Some m => HealthModels.brain m || HealthModels.chest m || false
  | None => false
  end.

(** The [try]/[catch] of [initializeApp] around the one call of
    [checkBackendStatus]: [None] is a call that threw. *)
Definition initializeApp (st : SystemState) (answer : option HealthAnswer.t)
  : SystemState :=
  match answer with
  | Some a =>
      setBackendStatus st
        (BackendStatus.mk (String.eqb (HealthAnswer.status a) "healthy")
                          (models_loaded a) None)
  | None => setBackendStatus st (BackendStatus.mk false false None)
  end.

(** ** The Electron main process: backend start-up and shutdown

    The module-level variables [backendProcess] and [isQuitting], the
    promise returned by [startBackend], the timers it sets and the
    handlers registered on the child process and on [app] form a state
    machine driven by the events Electron and Node deliver, one at a time,
    on the main thread. *)

(** [text.includes(search)] *)
Fixpoint includes (search text : string) : bool :=
  String.prefix search text
  || match text with
     | EmptyString => false
     | String _ rest => includes search rest
     end.

Inductive Signal := SIGTERM.

(** A Node [ChildProcess] as far as the main process touches it.
    [attached] says that the object still holds its operating-system
    process (spawned and not yet exited); [killed] is Node's flag, set by
    a [kill()] that delivered its signal; [signals] are the signals
    delivered so far. *)
Module ChildProcess.
Record t := mk {
  attached : bool;
  killed : bool;
  signals : list Signal
}.

(** [child.kill()]: delivers SIGTERM and sets [killed] when the process
    is still attached, does nothing otherwise. *)
Definition kill (p : t) : t :=
  if attached p
  then {| attached := attached p;
          killed := true;
          signals := signals p ++ [SIGTERM] |}
  else p.

(** The process has exited: Node releases its handle. *)
Definition exited (p : t) : t :=
  {| attached := false; killed := killed p; signals := signals p |}.
End ChildProcess.

(** The promise returned by [startBackend]. *)
Inductive Promise :=
| Pending
| Resolved (started : bool)
| Rejected.

Record MainState := mkMainState {
  backendProcess : option ChildProcess.t;  (* [null] is [None] *)
  isQuitting : bool;
  backendStarted : option Promise;  (* [None] until [startBackend] is called *)
  timers : list Z;                  (* delays of the pending [setTimeout]s, ms *)
  spawns : nat;                     (* calls of [spawn] so far *)
  windowCreated : bool;             (* [createWindow], [createMenu], [setupIpcHandlers] ran *)
  shortcuts : list string           (* registered global shortcuts *)
}.

Definition mainInitialState : MainState :=
  {| backendProcess := None;
     isQuitting := false;
     backendStarted := None;
     timers := [];
     spawns := 0;
     windowCreated := false;
     shortcuts := [] |}.

Inductive Event :=
| AppReady (spawned : bool)  (* [app.whenReady()] resolves and [spawn] returns a child; did it attach a process *)
| AppReadySpawnThrew         (* [app.whenReady()] resolves and [spawn] throws *)
| StdoutData (data : string) (* ['data'] on [backendProcess.stdout] *)
| StderrData (data : string) (* ['data'] on [backendProcess.stderr] *)
| ProcessError               (* ['error'] on [backendProcess] *)
| ProcessExit (code : Z)     (* the child process terminates *)
| TimerFired                 (* the timer of [startBackend] elapses *)
| BeforeQuit.                (* ['before-quit'] on [app] *)

(** The delay of the start-up timer, in milliseconds. *)
Definition startupTimeout : Z := 10000.

(** What follows [await startBackend()] in the [whenReady] handler,
    whether the promise resolved (either way) or rejected into the
    [catch]: the window, the menu and the IPC handlers are set up, and
    [createWindow] registers its two shortcuts. *)
Definition afterStartup (s : MainState) : MainState :=
  {| backendProcess := backendProcess s;
     isQuitting := isQuitting s;
     backendStarted := backendStarted s;
     timers := timers s;
     spawns := spawns s;
     windowCreated := true;
     shortcuts := shortcuts s ++ ["F11"; "Escape"] |}.

(** What the call of [spawn] in the promise executor did: it returned a
    child object, with its process attached or not, or it threw. *)
Inductive SpawnResult :=
| SpawnReturned (attached : bool)
| SpawnThrew.

(** The body of [startBackend] with what the [whenReady] handler does
    next. When [spawn] returns, [backendProcess] is the child, the
    handlers are registered, the timer is set and the promise is pending.
    When [spawn] throws, the executor is left at once: [backendProcess]
    is not assigned, no handler is registered and no timer set, the
    promise is rejected, and the awaiting handler goes on in its [catch]. *)
Definition startBackend (s : MainState) (spawn : SpawnResult) : MainState :=
  match spawn with
  | SpawnReturned attached =>
      {| backendProcess := Some (ChildProcess.mk attached false []);
         isQuitting := isQuitting s;
         backendStarted := Some Pending;
         timers := timers s ++ [startupTimeout];
         spawns := S (spawns s);
         windowCreated := windowCreated s;
         shortcuts := shortcuts s |}
  | SpawnThrew =>
      afterStartup
        {| backendProcess := backendProcess s;
           isQuitting := isQuitting s;
           backendStarted := Some Rejected;
           timers := timers s;
           spawns := S (spawns s);
           windowCreated := windowCreated s;
           shortcuts := shortcuts s |}
  end.

(** [resolve(v)] or [reject(e)] on the start-up promise: it settles only
    while pending, and the awaiting handler then continues. *)
Definition settle (s : MainState) (outcome : Promise) : MainState :=
  match backendStarted s with
  | Some Pending =>
      afterStartup
        {| backendProcess := backendProcess s;
           isQuitting := isQuitting s;
           backendStarted := Some outcome;
           timers := timers s;
           spawns := spawns s;
           windowCreated := windowCreated s;
           shortcuts := shortcuts s |}
  | _ => s
  end.

(** The ['before-quit'] handler. *)
Definition beforeQuit (s : MainState) : MainState :=
  {| backendProcess :=
       match backendProcess s with
       | Some p =>
           if negb (ChildProcess.killed p)
           then Some (ChildProcess.kill p)
           else Some p
       | None => None
       end;
     isQuitting := true;
     backendStarted := backendStarted s;
     timers := timers s;
     spawns := spawns s;
     windowCreated := windowCreated s;
     shortcuts := [] |}.

(** One event delivered to the main process. The handlers on the child
    process exist once [startBackend] has run; no handler is registered
    for the exit of the child, which only detaches it. *)
Definition handle (s : MainState) (e : Event) : MainState :=
  match e with
  | AppReady spawned =>
      match backendStarted s with
      | None => startBackend s (SpawnReturned spawned)
      | Some _ => s
      end
  | AppReadySpawnThrew =>
      match backendStarted s with
      | None => startBackend s SpawnThrew
      | Some _ => s
      end
  | StdoutData data =>
      if includes "Running on" data then settle s (Resolved true) else s
  | StderrData _ => s
  | ProcessError => settle s Rejected
  | ProcessExit _ =>
      {| backendProcess := ChildProcess.exited <$> backendProcess s;
         isQuitting := isQuitting s;
         backendStarted := backendStarted s;
         timers := timers s;
         spawns := spawns s;
         windowCreated := windowCreated s;
         shortcuts := shortcuts s |}
  | TimerFired =>
      match timers s with
      | _ :: pending =>
          settle {| backendProcess := backendProcess s;
                    isQuitting := isQuitting s;
                    backendStarted := backendStarted s;
                    timers := pending;
                    spawns := spawns s;
                    windowCreated := windowCreated s;
                    shortcuts := shortcuts s |}
                 (Resolved false)
      | [] => s
      end
  | BeforeQuit => beforeQuit s
  end.

Definition run (s : MainState) (events : list Event) : MainState :=
  fold_left handle events s.

(** The answer of the [backend:status] IPC handler:
    [backendProcess && !backendProcess.killed], a missing process read as
    not running, and the configured port. *)
Module StatusAnswer.
Record t := mk {
  running : bool;
  port : Z
}.
End StatusAnswer.

Definition backendPort : Z := 5000.

Definition backendStatusAnswer (s : MainState) : StatusAnswer.t :=
  {| StatusAnswer.running :=
       match backendProcess s with
       | Some p => negb (ChildProcess.killed p)
       | None => false
       end;
     StatusAnswer.port := backendPort |}.

(** An event that neither announces readiness nor fails the start-up nor
    ends the wait: output without the marker, error output, the exit of
    the child. *)
Definition quiet (e : Event) : bool :=
  match e with
  | StdoutData data => negb (includes "Running on" data)
  | StderrData _ => true
  | ProcessExit _ => true
  | _ => false
  end.

(** [spawn] is called by [startBackend] only, and [startBackend] only
    while no start-up promise exists. *)
Definition spawned_once (s : MainState) : Prop :=
  spawns s = match backendStarted s with Some _ => 1%nat | None => 0%nat end.

(** The [whenReady] handler is suspended at [await startBackend()]: the
    promise is pending, its timer is set, no window exists yet. *)
Definition waiting (s : MainState) : Prop :=
  backendStarted s = Some Pending
  /\ timers s = [startupTimeout]
  /\ windowCreated s = false
  /\ isQuitting s = false.

(** The backend announced itself on its standard output. *)
Definition announcedState : MainState :=
  run mainInitialState
    [AppReady true; StdoutData " * Running on http://127.0.0.1:5000"].

(** ** The analysis dispatcher and the result aggregator

    The code that dispatches the inference calls of a batch and classifies
    its outcome is not among the sources of the renderer store and of the
    main process above. The definitions of this part follow the
    specification (sections 3, 4.3 and 4.4); each says so. *)

(** Modelled from the spec: the [state] of [ServiceStatus] (section 3);
    the supervisor that owns it is missing from the sources. *)
Inductive ServiceState := Starting | Ready | Degraded | Crashed | Stopped.

(** Modelled from the spec: the [modality] of an [AnalysisRequest]. *)
Inductive Modality := Brain | Chest | Auto.

(** Modelled from the spec: [AnalysisRequest] (section 3); the image
    reference is an opaque handle. *)
Module AnalysisRequest.
Record t := mk {
  id : string;
  imageRef : string;
  modality : Modality
}.
End AnalysisRequest.

(** Modelled from the spec: the ways an inference call fails (section
    4.3: network error, malformed response, service-side error, timeout). *)
Inductive ErrorKind :=
| NetworkError
| MalformedResponse
| ServiceError
| CallTimeout.

(** Modelled from the spec: how one inference call settles (section 4.3);
    the inference service is an external collaborator. *)
Inductive CallResult :=
| CallSucceeded (prediction : string)
                (confidenceDistribution : list (string * float))
| CallFailed (kind : ErrorKind).

(** Modelled from the spec: [AnalysisOutcome] (section 3). *)
Module AnalysisOutcome.
Record t := mk {
  requestId : string;
  success : bool;
  prediction : option string;
  confidenceDistribution : option (list (string * float));
  errorKind : option ErrorKind
}.
End AnalysisOutcome.

(** Modelled from the spec: the outcome the dispatcher produces for a
    request whose call settled (section 4.3). *)
Definition outcomeOf (r : AnalysisRequest.t) (c : CallResult)
  : AnalysisOutcome.t :=
  match c with
  | CallSucceeded p dist =>
      AnalysisOutcome.mk (AnalysisRequest.id r) true (Some p) (Some dist) None
  | CallFailed k =>
      AnalysisOutcome.mk (AnalysisRequest.id r) false None None (Some k)
  end.

(** Modelled from the spec: the dispatcher of one batch (section 4.3):
    the work queue of the admitted requests, the calls in flight, the
    outcomes in the order of completion, and the cancellation token. *)
Module Dispatcher.
Record t := mk {
  concurrencyLimit : nat;
  queue : list AnalysisRequest.t;
  inFlight : list AnalysisRequest.t;
  outcomes : list AnalysisOutcome.t;
  cancelled : bool
}.
End Dispatcher.

(** Modelled from the spec: the error of [submit] (sections 4.3, 7). *)
Inductive SubmitError := ServiceUnavailable.

(** Modelled from the spec: [submit] (section 4.3) fails at once unless
    the service is [Ready] or [Degraded], and otherwise admits the whole
    batch into the work queue. *)
Definition submit (status : ServiceState) (batch : list AnalysisRequest.t)
    (concurrencyLimit : nat) : SubmitError + Dispatcher.t :=
  match status with
  | Ready | Degraded => inr (Dispatcher.mk concurrencyLimit batch [] [] false)
  | _ => inl ServiceUnavailable
  end.

(** Modelled from the spec: what happens to the dispatcher (section 4.3):
    it starts the next queued call, a call in flight settles, or the
    cancellation token is signalled. *)
Inductive DispatcherEvent :=
| Pump
| Settled (requestId : string) (result : CallResult)
| CancelSignalled.

(** Modelled from the spec: the call in flight that an answer belongs to
    (section 4.3): the first request with identifier [i] among the calls
    in flight, and the others. *)
Fixpoint takeInFlight (i : string) (calls : list AnalysisRequest.t)
  : option (AnalysisRequest.t * list AnalysisRequest.t) :=
  match calls with
  | [] => None
  | r :: rest =>
      if String.eqb (AnalysisRequest.id r) i then Some (r, rest)
      else match takeInFlight i rest with
           | Some (found, others) => Some (found, r :: others)
           | None => None
           end
  end.

(** Modelled from the spec: one step of the dispatcher (section 4.3). A
    queued request is started only while fewer than [concurrencyLimit]
    calls are in flight and the token is not signalled; a settled call
    leaves the calls in flight and adds its outcome; cancellation drops
    the queued requests and lets the calls in flight finish. *)
Definition dispatch (d : Dispatcher.t) (e : DispatcherEvent) : Dispatcher.t :=
  match e with
  | Pump =>
      match Dispatcher.queue d with
      | r :: waiting =>
          if negb (Dispatcher.cancelled d)
             && (length (Dispatcher.inFlight d) <? Dispatcher.concurrencyLimit d)%nat
          then Dispatcher.mk (Dispatcher.concurrencyLimit d) waiting
                 (Dispatcher.inFlight d ++ [r])
                 (Dispatcher.outcomes d) (Dispatcher.cancelled d)
          else d
      | [] => d
      end
  | Settled i result =>
      match takeInFlight i (Dispatcher.inFlight d) with
      | Some (r, others) =>
          Dispatcher.mk (Dispatcher.concurrencyLimit d) (Dispatcher.queue d)
            others
            (Dispatcher.outcomes d ++ [outcomeOf r result])
            (Dispatcher.cancelled d)
      | None => d
      end
  | CancelSignalled =>
      Dispatcher.mk (Dispatcher.concurrencyLimit d) []
        (Dispatcher.inFlight d) (Dispatcher.outcomes d) true
  end.

(** Modelled from the spec: the dispatcher over a sequence of events, in
    the order in which they occur (section 5). *)
Definition dispatchAll (d : Dispatcher.t) (events : list DispatcherEvent)
  : Dispatcher.t :=
  fold_left dispatch events d.

(** Modelled from the spec: a run of the dispatcher to the end of the
    batch, with the inference service answering [answer r] for request
    [r]: start a queued call whenever the limit allows, otherwise let the
    oldest call in flight settle. *)
Fixpoint drain (fuel : nat) (answer : AnalysisRequest.t -> CallResult)
    (d : Dispatcher.t) : Dispatcher.t :=
  match fuel with
  | O => d
  | S fuel' =>
      match Dispatcher.queue d, Dispatcher.inFlight d with
      | _ :: _, calls =>
          if negb (Dispatcher.cancelled d)
             && (length calls <? Dispatcher.concurrencyLimit d)%nat
          then drain fuel' answer (dispatch d Pump)
          else match calls with
               | r :: _ =>
                   drain fuel' answer
                     (dispatch d (Settled (AnalysisRequest.id r) (answer r)))
               | [] => d
               end
      | [], r :: _ =>
          drain fuel' answer
            (dispatch d (Settled (AnalysisRequest.id r) (answer r)))
      | [], [] => d
      end
  end.

(** Modelled from the spec: the [status] of a [BatchRun] (section 3). *)
Inductive BatchStatus := Running | Completed | PartiallyFailed | Aborted.

(** Modelled from the spec: [BatchRun] (section 3), owned by the result
    aggregator. *)
Module BatchRun.
Record t := mk {
  batchId : string;
  requests : list AnalysisRequest.t;
  outcomes : gmap string AnalysisOutcome.t;
  status : BatchStatus
}.
End BatchRun.

(** Modelled from the spec: on batch creation the status is [Running] and
    there are no outcomes (section 4.4). *)
Definition createBatch (batchId : string) (requests : list AnalysisRequest.t)
  : BatchRun.t :=
  BatchRun.mk batchId requests ∅ Running.

(** The request has an outcome, and it is a success. *)
Definition succeeded (outcomes : gmap string AnalysisOutcome.t)
    (r : AnalysisRequest.t) : bool :=
  match outcomes !! AnalysisRequest.id r with
  | Some o => AnalysisOutcome.success o
  | None => false
  end.

(** The request has an outcome, and it is a failure. *)
Definition failed (outcomes : gmap string AnalysisOutcome.t)
    (r : AnalysisRequest.t) : bool :=
  match outcomes !! AnalysisRequest.id r with
  | Some o => negb (AnalysisOutcome.success o)
  | None => false
  end.

(** The request has no outcome. *)
Definition missing (outcomes : gmap string AnalysisOutcome.t)
    (r : AnalysisRequest.t) : bool :=
  match outcomes !! AnalysisRequest.id r with
  | Some _ => false
  | None => true
  end.

(** Modelled from the spec: the final status of a batch whose outcomes
    have all arrived (rule of section 3, applied by section 4.4):
    [Completed] when every request has a successful outcome,
    [PartiallyFailed] when at least one request has a success and at
    least one a failure or no outcome. For a batch without any success
    the rule names no status: [None]. *)
Definition finalStatus (requests : list AnalysisRequest.t)
    (outcomes : gmap string AnalysisOutcome.t) : option BatchStatus :=
  if forallb (succeeded outcomes) requests then Some Completed
  else if existsb (succeeded outcomes) requests
          && existsb (fun r => failed outcomes r || missing outcomes r) requests
  then Some PartiallyFailed
  else None.

(** Modelled from the spec: what the dispatcher reports to the aggregator
    (section 4.4). *)
Inductive AggregatorEvent :=
| OutcomeArrived (o : AnalysisOutcome.t)
| CancelAcknowledged.

(** Modelled from the spec: the aggregator's state machine (section 4.4).
    A terminal status is final. While [Running], an outcome is inserted
    and, once there are as many outcomes as requests, the batch takes the
    final status the rule of section 3 names; where the rule names none,
    the specification defines no next state: [None]. An acknowledged
    cancellation gives [Aborted] and keeps the outcomes recorded so far. *)
Definition aggregate (b : BatchRun.t) (e : AggregatorEvent)
  : option BatchRun.t :=
  match BatchRun.status b with
  | Running =>
      match e with
      | OutcomeArrived o =>
          let outcomes' :=
            <[AnalysisOutcome.requestId o := o]> (BatchRun.outcomes b) in
          if (size outcomes' =? length (BatchRun.requests b))%nat
          then match finalStatus (BatchRun.requests b) outcomes' with
               | Some st =>
                   Some (BatchRun.mk (BatchRun.batchId b) (BatchRun.requests b)
                           outcomes' st)
               | None => None
               end
          else Some (BatchRun.mk (BatchRun.batchId b) (BatchRun.requests b)
                       outcomes' Running)
      | CancelAcknowledged =>
          Some (BatchRun.mk (BatchRun.batchId b) (BatchRun.requests b)
                  (BatchRun.outcomes b) Aborted)
      end
  | _ => Some b
  end.

(** Modelled from the spec: the aggregator over the events of a batch,
    in the order in which they are delivered (section 5), as far as the
    specification defines it. *)
Fixpoint aggregateAll (b : BatchRun.t) (events : list AggregatorEvent)
  : option BatchRun.t :=
  match events with
  | [] => Some b
  | e :: rest =>
      match aggregate b e with
      | Some b' => aggregateAll b' rest
      | None => None
      end
  end.

(** The batch was cancelled before all outcomes arrived: a cancellation
    was acknowledged at a point where the batch had fewer outcomes than
    requests. *)
Definition cancelledEarly (b : BatchRun.t) (events : list AggregatorEvent)
  : Prop :=
  exists before after s,
    events = before ++ CancelAcknowledged :: after
    /\ aggregateAll b before = Some s
    /\ (size (BatchRun.outcomes s) < length (BatchRun.requests s))%nat.


(** Modelled from the spec: the classification rule of section 3 in the
    specification's words, for a status [st], the requests and outcomes
    of a batch, and [early] saying that the batch was cancelled before
    all outcomes arrived. *)
Definition statusRule (requests : list AnalysisRequest.t)
    (outcomes : gmap string AnalysisOutcome.t) (early : Prop)
    (st : BatchStatus) : Prop :=
  (st = Completed <->
     forall r, r ∈ requests -> succeeded outcomes r = true)
  /\ (st = PartiallyFailed <->
       (exists r, r ∈ requests /\ succeeded outcomes r = true)
       /\ (exists r, r ∈ requests
                     /\ (failed outcomes r = true \/ missing outcomes r = true)))
  /\ (st = Aborted <-> early).

(** Requests and call results for concrete batches. *)
Definition request (i : string) : AnalysisRequest.t :=
  AnalysisRequest.mk i (i +:+ ".png") Auto.

Definition glioma : CallResult :=
  CallSucceeded "glioma" [("glioma", 0.75%float); ("notumor", 0.25%float)].

(** The inference service of the scenario of section 8: items 2 and 4
    fail with a service-side error, the others succeed. *)
Definition failsSecondAndFourth (r : AnalysisRequest.t) : CallResult :=
  if String.eqb (AnalysisRequest.id r) "2" || String.eqb (AnalysisRequest.id r) "4"
  then CallFailed ServiceError
  else glioma.

Definition fiveImages : list AnalysisRequest.t :=
  [request "1"; request "2"; request "3"; request "4"; request "5"].


(** A batch of one image whose call timed out. *)
Definition onlyCallTimedOut : list AggregatorEvent :=
  [OutcomeArrived (outcomeOf (request "1") (CallFailed CallTimeout))].


(** ** store/slices/analysisSlice.ts: the remaining reducers *)

Definition clearImages (st : AnalysisState) : AnalysisState :=
  {| images := [];
     currentImageIndex := 0;
     results := results st;
     isAnalyzing := isAnalyzing st;
     analysisProgress := analysisProgress st;
     currentAnalysisType := currentAnalysisType st;
     batchMode := batchMode st;
     selectedResults := selectedResults st |}.

Definition setCurrentImageIndex (st : AnalysisState) (payload : Z)
  : AnalysisState :=
  {| images := images st;
     currentImageIndex := payload;
     results := results st;
     isAnalyzing := isAnalyzing st;
     analysisProgress := analysisProgress st;
     currentAnalysisType := currentAnalysisType st;
     batchMode := batchMode st;
     selectedResults := selectedResults st |}.

Definition setResults (st : AnalysisState) (payload : list AnalysisResult.t)
  : AnalysisState :=
  {| images := images st;
     currentImageIndex := currentImageIndex st;
     results := payload;
     isAnalyzing := isAnalyzing st;
     analysisProgress := analysisProgress st;
     currentAnalysisType := currentAnalysisType st;
     batchMode := batchMode st;
     selectedResults := selectedResults st |}.

Definition clearResults (st : AnalysisState) : AnalysisState :=
  {| images := images st;
     currentImageIndex := currentImageIndex st;
     results := [];
     isAnalyzing := isAnalyzing st;
     analysisProgress := analysisProgress st;
     currentAnalysisType := currentAnalysisType st;
     batchMode := batchMode st;
     selectedResults := [] |}.

(** [r => r.id !== action.payload] and [id => id !== action.payload] *)
Definition keeps_result (payload : string) (r : AnalysisResult.t) : bool :=
  negb (String.eqb (AnalysisResult.id r) payload).

Definition keeps_id (payload : string) (i : string) : bool :=
  negb (String.eqb i payload).

Definition removeResult (st : AnalysisState) (payload : string)
  : AnalysisState :=
  {| images := images st;
     currentImageIndex := currentImageIndex st;
     results := List.filter (keeps_result payload) (results st);
     isAnalyzing := isAnalyzing st;
     analysisProgress := analysisProgress st;
     currentAnalysisType := currentAnalysisType st;
     batchMode := batchMode st;
     selectedResults := List.filter (keeps_id payload) (selectedResults st) |}.

Definition setAnalysisProgress (st : AnalysisState) (payload : float)
  : AnalysisState :=
  {| images := images st;
     currentImageIndex := currentImageIndex st;
     results := results st;
     isAnalyzing := isAnalyzing st;
     analysisProgress := payload;
     currentAnalysisType := currentAnalysisType st;
     batchMode := batchMode st;
     selectedResults := selectedResults st |}.

Definition setAnalysisType (st : AnalysisState) (payload : AnalysisType)
  : AnalysisState :=
  {| images := images st;
     currentImageIndex := currentImageIndex st;
     results := results st;
     isAnalyzing := isAnalyzing st;
     analysisProgress := analysisProgress st;
     currentAnalysisType := payload;
     batchMode := batchMode st;
     selectedResults := selectedResults st |}.

Definition setBatchMode (st : AnalysisState) (payload : bool)
  : AnalysisState :=
  {| images := images st;
     currentImageIndex := currentImageIndex st;
     results := results st;
     isAnalyzing := isAnalyzing st;
     analysisProgress := analysisProgress st;
     currentAnalysisType := currentAnalysisType st;
     batchMode := payload;
     selectedResults := selectedResults st |}.

(** [arr.indexOf(x)]: the position of the first element equal to [x];
    [None] is JavaScript's -1. *)
Fixpoint indexOf (x : string) (l : list string) : option nat :=
  match l with
  | [] => None
  | y :: rest => if String.eqb y x then Some 0%nat else S <$> indexOf x rest
  end.

(** The body of [toggleResultSelection] on the selection:
    [splice(index, 1)] when [indexOf] finds the id, [push] otherwise. *)
Definition toggled (i : string) (selection : list string) : list string :=
  match indexOf i selection with
  | Some index => delete index selection
  | None => selection ++ [i]
  end.

Definition toggleResultSelection (st : AnalysisState) (payload : string)
  : AnalysisState :=
  {| images := images st;
     currentImageIndex := currentImageIndex st;
     results := results st;
     isAnalyzing := isAnalyzing st;
     analysisProgress := analysisProgress st;
     currentAnalysisType := currentAnalysisType st;
     batchMode := batchMode st;
     selectedResults := toggled payload (selectedResults st) |}.

Definition selectAllResults (st : AnalysisState) : AnalysisState :=
  {| images := images st;
     currentImageIndex := currentImageIndex st;
     results := results st;
     isAnalyzing := isAnalyzing st;
     analysisProgress := analysisProgress st;
     currentAnalysisType := currentAnalysisType st;
     batchMode := batchMode st;
     selectedResults := map AnalysisResult.id (results st) |}.

Definition deselectAllResults (st : AnalysisState) : AnalysisState :=
  {| images := images st;
     currentImageIndex := currentImageIndex st;
     results := results st;
     isAnalyzing := isAnalyzing st;
     analysisProgress := analysisProgress st;
     currentAnalysisType := currentAnalysisType st;
     batchMode := batchMode st;
     selectedResults := [] |}.

(** The actions of the slice and its reducer. *)
Inductive AnalysisAction :=
| SetImages (payload : list ImageFile.t)
| AddImages (payload : list ImageFile.t)
| RemoveImage (payload : string)
| ClearImages
| SetCurrentImageIndex (payload : Z)
| AddResult (payload : AnalysisResult.t)
| SetResults (payload : list AnalysisResult.t)
| ClearResults
| RemoveResult (payload : string)
| SetIsAnalyzing (payload : bool)
| SetAnalysisProgress (payload : float)
| SetAnalysisType (payload : AnalysisType)
| SetBatchMode (payload : bool)
| ToggleResultSelection (payload : string)
| SelectAllResults
| DeselectAllResults.

Definition analysisReducer (st : AnalysisState) (a : AnalysisAction)
  : AnalysisState :=
  match a with
  | SetImages p => setImages st p
  | AddImages p => addImages st p
  | RemoveImage i => removeImage st i
  | ClearImages => clearImages st
  | SetCurrentImageIndex n => setCurrentImageIndex st n
  | AddResult r => addResult st r
  | SetResults rs => setResults st rs
  | ClearResults => clearResults st
  | RemoveResult i => removeResult st i
  | SetIsAnalyzing b => setIsAnalyzing st b
  | SetAnalysisProgress p => setAnalysisProgress st p
  | SetAnalysisType t => setAnalysisType st t
  | SetBatchMode b => setBatchMode st b
  | ToggleResultSelection i => toggleResultSelection st i
  | SelectAllResults => selectAllResults st
  | DeselectAllResults => deselectAllResults st
  end.

Definition analysisRun (st : AnalysisState) (actions : list AnalysisAction)
  : AnalysisState :=
  fold_left analysisReducer actions st.

(** Every selected id is the id of a recorded result. *)
Definition selection_consistent (st : AnalysisState) : Prop :=
  forall i, i ∈ selectedResults st -> i ∈ map AnalysisResult.id (results st).

(** The actions that can leave a selected id without its result:
    replacing the results wholesale, and toggling an arbitrary id. *)
Definition selection_safe (a : AnalysisAction) : bool :=
  match a with
  | SetResults _ | ToggleResultSelection _ => false
  | _ => true
  end.

(** The actions other than [setCurrentImageIndex], which stores any
    number as the index, and [removeImage], which shortens the list under
    the index. *)
Definition index_safe (a : AnalysisAction) : bool :=
  match a with
  | SetCurrentImageIndex _ | RemoveImage _ => false
  | _ => true
  end.

(** A result that carries only an identifier and its success flag. *)
Definition result_with_id (i : string) (ok : bool) : AnalysisResult.t :=
  AnalysisResult.mk i "" brain "" 0%float []
    (MedicalInfo.mk "" "" "" BAJO "") "" ok None.

(** Two results, the second one selected. *)
Definition two_result_state : AnalysisState :=
  {| images := [];
     currentImageIndex := 0;
     results := [result_with_id "r1" true; result_with_id "r2" false];
     isAnalyzing := false;
     analysisProgress := 0%float;
     currentAnalysisType := auto_type;
     batchMode := true;
     selectedResults := ["r2"] |}.

(** ** store/slices/systemSlice.ts: the remaining reducers, and the
    notification badge of components/Layout/Layout.tsx *)

Definition setAppInfo (st : SystemState) (payload : option AppInfo.t)
  : SystemState :=
  {| backendStatus := backendStatus st;
     appInfo := payload;
     notifications := notifications st;
     isFullscreen := isFullscreen st;
     isDarkMode := isDarkMode st |}.

Definition setFullscreen (st : SystemState) (payload : bool) : SystemState :=
  {| backendStatus := backendStatus st;
     appInfo := appInfo st;
     notifications := notifications st;
     isFullscreen := payload;
     isDarkMode := isDarkMode st |}.

Definition setDarkMode (st : SystemState) (payload : bool) : SystemState :=
  {| backendStatus := backendStatus st;
     appInfo := appInfo st;
     notifications := notifications st;
     isFullscreen := isFullscreen st;
     isDarkMode := payload |}.

Inductive SystemAction :=
| SetBackendStatus (payload : BackendStatus.t)
| SetAppInfo (payload : option AppInfo.t)
| AddNotification (payload : NotificationPayload.t) (clock : Clock.t)
| ClearNotifications
| SetFullscreen (payload : bool)
| SetDarkMode (payload : bool).

Definition systemReducer (st : SystemState) (a : SystemAction) : SystemState :=
  match a with
  | SetBackendStatus p => setBackendStatus st p
  | SetAppInfo p => setAppInfo st p
  | AddNotification p clock => addNotification st p clock
  | ClearNotifications => clearNotifications st
  | SetFullscreen b => setFullscreen st b
  | SetDarkMode b => setDarkMode st b
  end.

Definition systemRun (st : SystemState) (actions : list SystemAction)
  : SystemState :=
  fold_left systemReducer actions st.

(** [n => n.type === 'error' || n.type === 'warning'] *)
Definition is_unread (n : Notification.t) : bool :=
  match Notification.type n with
  | NotificationType.error | NotificationType.warning => true
  | _ => false
  end.

(** [notifications.filter(...).length], the content of the badge. *)
Definition unreadNotifications (st : SystemState) : nat :=
  length (List.filter is_unread (notifications st)).

(** ** The main process: the window's close handler and
    ['window-all-closed'] *)

(** [process.platform] *)
Inductive Platform := darwin | win32 | linux.

Definition is_darwin (p : Platform) : bool :=
  match p with darwin => true | _ => false end.

(** The ['close'] handler of the main window:
    [if (!isQuitting && process.platform === 'darwin')] the close is
    prevented and the window hidden. *)
Definition closePrevented (platform : Platform) (s : MainState) : bool :=
  negb (isQuitting s) && is_darwin platform.

(** The ['window-all-closed'] handler: [app.quit()] unless on macOS;
    [app.quit()] emits ['before-quit'] first. *)
Definition windowAllClosed (platform : Platform) (s : MainState) : MainState :=
  if negb (is_darwin platform) then handle s BeforeQuit else s.

(** The user closes the main window, the only window of the application:
    either the handler prevents it, or the window closes and
    ['window-all-closed'] follows. *)
Definition closeMainWindow (platform : Platform) (s : MainState) : MainState :=
  if closePrevented platform s then s else windowAllClosed platform s.

(** The start-up promise has settled: resolved or rejected. *)
Definition settled (s : MainState) : bool :=
  match backendStarted s with
  | Some (Resolved _) | Some Rejected => true
  | _ => false
  end.

(** Any event but ['before-quit']. *)
Definition not_quitting (e : Event) : bool :=
  match e with BeforeQuit => false | _ => true end.

(** ** The preload script: the API exposed to the renderer *)

(** A function object registered as a listener. [Given f] is the callback
    [f] the caller handed over; [Wrapping f] is the arrow function
    [(event, data) => f(data)] created around it, an object of its own. *)
Inductive Listener :=
| Given (callback : nat)
| Wrapping (callback : nat).

#[global] Instance Listener_eq_dec : EqDecision Listener.
Proof. solve_decision. Defined.

(** The listeners of [ipcRenderer], in the order of registration. *)
Definition Registrations := list (string * Listener).

(** [ipcRenderer.on(channel, listener)] *)
Definition ipcOn (channel : string) (l : Listener) (reg : Registrations)
  : Registrations :=
  reg ++ [(channel, l)].

(** The list without the first element equal to [x]. *)
Fixpoint remove_first (x : string * Listener) (reg : Registrations)
  : Registrations :=
  match reg with
  | [] => []
  | y :: rest => if decide (y = x) then rest else y :: remove_first x rest
  end.

(** [ipcRenderer.removeListener(channel, listener)]: removes at most one
    registration of that very listener, the most recent one. *)
Definition ipcRemoveListener (channel : string) (l : Listener)
    (reg : Registrations) : Registrations :=
  reverse (remove_first (channel, l) (reverse reg)).

(** The listeners registered on a channel. *)
Definition listeners (channel : string) (reg : Registrations)
  : list Listener :=
  map snd (List.filter (fun entry => String.eqb entry.1 channel) reg).

(** The functions of [electronAPI.menu]. *)
Inductive MenuEvent :=
| onLoadImages
| onLoadFolder
| onExportPDF
| onExportCSV
| onShowHistory
| onShowSettings
| onShowAbout
| onCacheCleared.

Definition menuChannel (m : MenuEvent) : string :=
  match m with
  | onLoadImages => "menu-load-images"
  | onLoadFolder => "menu-load-folder"
  | onExportPDF => "menu-export-pdf"
  | onExportCSV => "menu-export-csv"
  | onShowHistory => "menu-show-history"
  | onShowSettings => "menu-show-settings"
  | onShowAbout => "menu-show-about"
  | onCacheCleared => "cache-cleared"
  end.

(** [validChannels.includes(channel)] of [utils.send] and of [utils.on]. *)
Definition validSendChannels : list string :=
  ["analyze-image"; "export-report"; "load-history"].

Definition validReceiveChannels : list string :=
  ["analysis-result"; "export-complete"; "history-loaded"].

Definition array_includes (x : string) (l : list string) : bool :=
  existsb (String.eqb x) l.

(** What the preload script holds of [ipcRenderer]: the registrations and
    the messages sent to the main process. *)
Module Preload.
Record t := mk {
  registrations : Registrations;
  sent : list (string * string)
}.
End Preload.

(** What the renderer can do with the exposed API: call a function of
    [menu], call the function it returned, call [utils.on], call the
    function it returned, call [utils.send]. *)
Inductive ApiCall :=
| MenuSubscribe (m : MenuEvent) (callback : nat)
| MenuUnsubscribe (m : MenuEvent) (callback : nat)
| UtilsOn (channel : string) (callback : nat)
| UtilsOff (channel : string) (callback : nat)
| UtilsSend (channel : string) (data : string).

Definition apiCall (p : Preload.t) (c : ApiCall) : Preload.t :=
  match c with
  | MenuSubscribe m f =>
      Preload.mk (ipcOn (menuChannel m) (Given f) (Preload.registrations p))
                 (Preload.sent p)
  | MenuUnsubscribe m f =>
      Preload.mk (ipcRemoveListener (menuChannel m) (Given f)
                    (Preload.registrations p))
                 (Preload.sent p)
  | UtilsOn channel f =>
      if array_includes channel validReceiveChannels
      then Preload.mk (ipcOn channel (Wrapping f) (Preload.registrations p))
                      (Preload.sent p)
      else p
  | UtilsOff channel f =>
      if array_includes channel validReceiveChannels
      then Preload.mk (ipcRemoveListener channel (Given f)
                         (Preload.registrations p))
                      (Preload.sent p)
      else p
  | UtilsSend channel data =>
      if array_includes channel validSendChannels
      then Preload.mk (Preload.registrations p)
                      (Preload.sent p ++ [(channel, data)])
      else p
  end.

Definition apiRun (p : Preload.t) (calls : list ApiCall) : Preload.t :=
  fold_left apiCall calls p.

Definition preloadInitial : Preload.t := Preload.mk [] [].

(** The calls of [utils.on] that register a listener on [channel]. *)
Definition registers_on (channel : string) (c : ApiCall) : bool :=
  match c with
  | UtilsOn ch _ =>
      String.eqb ch channel && array_includes ch validReceiveChannels
  | _ => false
  end.

(** The message a call of [utils.send] puts on the wire, if any. *)
Definition message_of (c : ApiCall) : option (string * string) :=
  match c with
  | UtilsSend channel data =>
      if array_includes channel validSendChannels
      then Some (channel, data) else None
  | _ => None
  end.

(** On the channels of [utils.on] only wrappers are registered. *)
Definition only_wrappers (reg : Registrations) : Prop :=
  forall channel l,
    (channel, l) ∈ reg ->
    array_includes channel validReceiveChannels = true ->
    exists f, l = Wrapping f.
(** * Properties *)

(** ** Properties of the analysis slice *)

Section AnalysisSlice.

Lemma filter_keeps_count (i : string) (imgs : list ImageFile.t) :
  (length (List.filter (keeps_image i) imgs) + id_count i imgs)%nat
  = length imgs.
Proof.
  unfold id_count, keeps_image.
  induction imgs as [|img imgs IH]; simpl; [reflexivity|].
  destruct (String.eqb (ImageFile.id img) i); simpl; lia.
Qed.

Lemma removeImage_length (st : AnalysisState) (i : string) :
  images_length (removeImage st i)
  = images_length st - Z.of_nat (id_count i (images st)).
Proof.
  unfold images_length; simpl.
  pose proof (filter_keeps_count i (images st)); lia.
Qed.

Lemma removeImage_index (st : AnalysisState) (i : string) :
  currentImageIndex (removeImage st i)
  = if (images_length (removeImage st i) <=? currentImageIndex st)
       && (0 <? currentImageIndex st)
    then currentImageIndex st - 1
    else currentImageIndex st.
Proof. reflexivity. Qed.

End AnalysisSlice.

(** C9, as stated, fails: [removeImage] filters out every image that
    carries the identifier but moves the index back by one position only.
    With three images sharing the identifier "a" and the index on the last
    of them, the index is valid before and is 1 on an empty list after. *)
Lemma removeImage_shared_id_invalid :
  valid_position shared_id_state
  /\ images (removeImage shared_id_state "a") = []
  /\ currentImageIndex (removeImage shared_id_state "a") = 1
  /\ ~ valid_position (removeImage shared_id_state "a").
Proof.
  repeat split.
  - left. unfold images_length. simpl. lia.
  - unfold valid_position, images_length. simpl. lia.
Qed.

(** C9, amended: when the index is a valid position and at most one image
    carries the removed identifier, the index is a valid position after
    [removeImage]; it is one less exactly when it was positive and at or
    past the end of the shrunken list, unchanged otherwise, and it is
    never negative. *)
Theorem removeImage_valid_position (st : AnalysisState) (i : string) :
  valid_position st ->
  (id_count i (images st) <= 1)%nat ->
  valid_position (removeImage st i)
  /\ 0 <= currentImageIndex (removeImage st i)
  /\ (images_length (removeImage st i) <= currentImageIndex st
      /\ 0 < currentImageIndex st ->
      currentImageIndex (removeImage st i) = currentImageIndex st - 1)
  /\ (~ (images_length (removeImage st i) <= currentImageIndex st
         /\ 0 < currentImageIndex st) ->
      currentImageIndex (removeImage st i) = currentImageIndex st).
Proof.
  intros Hvalid Hcount.
  unfold valid_position in *.
  rewrite removeImage_index.
  pose proof (removeImage_length st i) as Hlen.
  assert (Hnonneg : 0 <= images_length (removeImage st i))
    by (unfold images_length; lia).
  generalize dependent (images_length (removeImage st i)).
  intros len' Hlen Hnonneg.
  destruct (Z.leb_spec len' (currentImageIndex st));
    destruct (Z.ltb_spec 0 (currentImageIndex st)); simpl; lia.
Qed.

Lemma removeImage_valid_position_witness :
  valid_position two_image_state
  /\ (id_count "b" (images two_image_state) <= 1)%nat
  /\ valid_position (removeImage two_image_state "b")
  /\ currentImageIndex (removeImage two_image_state "b") = 0.
Proof.
  assert (Hv : valid_position two_image_state)
    by (left; unfold images_length; simpl; lia).
  assert (Hc : (id_count "b" (images two_image_state) <= 1)%nat)
    by (vm_compute; lia).
  repeat split; try assumption.
  exact (proj1 (removeImage_valid_position two_image_state "b" Hv Hc)).
Defined.

(** C10: [setIsAnalyzing false] clears the flag and resets the progress to
    0, [setIsAnalyzing true] sets the flag and keeps the progress; every
    other field of the analysis state is the one it was. *)
Theorem setIsAnalyzing_frame (st : AnalysisState) :
  setIsAnalyzing st false
  = {| images := images st;
       currentImageIndex := currentImageIndex st;
       results := results st;
       isAnalyzing := false;
       analysisProgress := 0%float;
       currentAnalysisType := currentAnalysisType st;
       batchMode := batchMode st;
       selectedResults := selectedResults st |}
  /\ setIsAnalyzing st true
     = {| images := images st;
          currentImageIndex := currentImageIndex st;
          results := results st;
          isAnalyzing := true;
          analysisProgress := analysisProgress st;
          currentAnalysisType := currentAnalysisType st;
          batchMode := batchMode st;
          selectedResults := selectedResults st |}.
Proof. split; reflexivity. Qed.

(** ** Properties of the system slice *)

Section SystemSlice.

Context {A : Type}.
Implicit Types l k : list A.

Lemma slice_last_length n l :
  length (slice_last n l) = (length l `min` n)%nat.
Proof. unfold slice_last. rewrite length_drop. lia. Qed.

Lemma slice_last_short n l :
  (length l <= n)%nat -> slice_last n l = l.
Proof.
  intros H. unfold slice_last.
  replace (length l - n)%nat with 0%nat by lia. reflexivity.
Qed.

(** Cutting to the last [n] before more elements arrive loses nothing
    that the cut of the whole would keep. *)
Lemma slice_last_app n l k :
  slice_last n (slice_last n l ++ k) = slice_last n (l ++ k).
Proof.
  destruct (decide (length l <= n)%nat) as [Hle | Hgt].
  - rewrite (slice_last_short n l Hle). reflexivity.
  - unfold slice_last at 1 3.
    rewrite !length_app, slice_last_length.
    replace (length l `min` n + length k - n)%nat with (length k) by lia.
    replace (length l + length k - n)%nat
      with ((length l - n) + length k)%nat by lia.
    rewrite <- drop_drop.
    rewrite (drop_app_le l k (length l - n)) by lia.
    reflexivity.
Qed.

End SystemSlice.

Lemma addNotification_slice (st : SystemState)
    (payload : NotificationPayload.t) (clock : Clock.t) :
  notifications (addNotification st payload clock)
  = slice_last 10 (notifications st ++ [stamped payload clock]).
Proof.
  simpl.
  destruct (Nat.ltb_spec 10 (length (notifications st ++ [stamped payload clock])))
    as [Hlt | Hge]; [reflexivity|].
  symmetry. apply slice_last_short. exact Hge.
Qed.

Lemma addNotifications_slice (st : SystemState)
    (a : NotificationPayload.t * Clock.t)
    (rest : list (NotificationPayload.t * Clock.t)) :
  notifications (addNotifications st (a :: rest))
  = slice_last 10
      (notifications st ++ map (fun x => stamped x.1 x.2) (a :: rest)).
Proof.
  revert st a. induction rest as [|b rest IH]; intros st a.
  - apply addNotification_slice.
  - change (addNotifications st (a :: b :: rest))
      with (addNotifications (addNotification st a.1 a.2) (b :: rest)).
    rewrite IH, addNotification_slice.
    rewrite slice_last_app.
    rewrite <- app_assoc. reflexivity.
Qed.

(** C8: after [addNotification] the list has at most 10 entries, whatever
    the state before; after one or more additions it is the last 10 of the
    earlier entries followed by the added ones, in the order of addition,
    and once 10 or more have been added it is exactly the last 10 added. *)
Theorem addNotification_keeps_last_10 (st : SystemState)
    (a : NotificationPayload.t * Clock.t)
    (rest : list (NotificationPayload.t * Clock.t)) :
  (length (notifications (addNotification st a.1 a.2)) <= 10)%nat
  /\ notifications (addNotification st a.1 a.2)
     = slice_last 10 (notifications st ++ [stamped a.1 a.2])
  /\ (length (notifications (addNotifications st (a :: rest))) <= 10)%nat
  /\ notifications (addNotifications st (a :: rest))
     = slice_last 10
         (notifications st ++ map (fun x => stamped x.1 x.2) (a :: rest))
  /\ ((10 <= length (a :: rest))%nat ->
      notifications (addNotifications st (a :: rest))
      = slice_last 10 (map (fun x => stamped x.1 x.2) (a :: rest))).
Proof.
  rewrite addNotification_slice, !addNotifications_slice.
  rewrite !slice_last_length.
  repeat split; try lia.
  intros Hten. unfold slice_last.
  rewrite length_app.
  set (added := map _ _).
  assert (Hadded : (10 <= length added)%nat).
  { subst added. rewrite length_map. exact Hten. }
  replace (length (notifications st) + length added - 10)%nat
    with (length (notifications st) + (length added - 10))%nat by lia.
  apply drop_app_add.
Qed.

Lemma addNotification_keeps_last_10_witness :
  (10 <= length (replicate 12 eleventh_hour))%nat
  /\ notifications (addNotifications three_notifications
                      (replicate 12 eleventh_hour))
     = replicate 10 (stamped eleventh_hour.1 eleventh_hour.2).
Proof.
  split; [simpl; lia|].
  pose proof (addNotification_keeps_last_10 three_notifications
                eleventh_hour (replicate 11 eleventh_hour)) as (_ & _ & _ & _ & H).
  change (eleventh_hour :: replicate 11 eleventh_hour)
    with (replicate 12 eleventh_hour) in H.
  rewrite H; [reflexivity | simpl; lia].
Defined.

(** ** Properties of the main process *)

Section MainProcess.

Implicit Types (s : MainState) (e : Event) (events : list Event).

Lemma run_app s events events' :
  run s (events ++ events') = run (run s events) events'.
Proof. apply fold_left_app. Qed.

Lemma run_snoc s events e :
  run s (events ++ [e]) = handle (run s events) e.
Proof. apply run_app. Qed.

Lemma settle_spawns s outcome : spawns (settle s outcome) = spawns s.
Proof. unfold settle. destruct (backendStarted s) as [[]|]; reflexivity. Qed.

Lemma settle_spawned_once s outcome :
  spawned_once s -> spawned_once (settle s outcome).
Proof.
  unfold spawned_once. rewrite settle_spawns.
  unfold settle. destruct (backendStarted s) as [[]|] eqn:E; simpl;
    rewrite ?E; auto.
Qed.

Lemma handle_spawned_once s e : spawned_once s -> spawned_once (handle s e).
Proof.
  intros H. destruct e; simpl; auto.
  - unfold spawned_once in *.
    destruct (backendStarted s) eqn:E; simpl; rewrite ?E; [assumption | lia].
  - unfold spawned_once in *.
    destruct (backendStarted s) eqn:E; simpl; rewrite ?E; [assumption | lia].
  - destruct (includes _ _); [apply settle_spawned_once|]; assumption.
  - apply settle_spawned_once; assumption.
  - destruct (timers s); [assumption|].
    apply settle_spawned_once. exact H.
Qed.

Lemma run_spawned_once s events : spawned_once s -> spawned_once (run s events).
Proof.
  revert s. induction events as [|e events IH]; intros s H; simpl; auto.
  apply IH, handle_spawned_once, H.
Qed.

Lemma spawns_at_most_once events : (spawns (run mainInitialState events) <= 1)%nat.
Proof.
  pose proof (run_spawned_once mainInitialState events eq_refl) as H.
  unfold spawned_once in H. destruct (backendStarted _); lia.
Qed.

Lemma quiet_keeps_waiting s e : quiet e = true -> waiting s -> waiting (handle s e).
Proof.
  intros Hq Hw. destruct e; simpl in *; try discriminate; auto.
  destruct (includes _ _); [discriminate | assumption].
Qed.

Lemma quiet_run_waiting s events :
  Forall (fun e => quiet e = true) events -> waiting s -> waiting (run s events).
Proof.
  intros Hq. revert s. induction Hq as [|e events He _ IH]; intros s Hw; simpl; auto.
  apply IH, quiet_keeps_waiting; assumption.
Qed.

(** Once [startBackend] has been called its promise exists for good. *)
Lemma settle_keeps_started s outcome :
  is_Some (backendStarted s) -> is_Some (backendStarted (settle s outcome)).
Proof.
  intros Hs. unfold settle.
  destruct (backendStarted s) as [[]|] eqn:E; simpl; rewrite ?E; eauto.
Qed.

Lemma handle_keeps_started s e :
  is_Some (backendStarted s) -> is_Some (backendStarted (handle s e)).
Proof.
  intros Hs. destruct e; simpl; try assumption.
  - destruct (backendStarted s) eqn:E; [rewrite E; eauto|].
    destruct Hs; discriminate.
  - destruct (backendStarted s) eqn:E; [rewrite E; eauto|].
    destruct Hs; discriminate.
  - destruct (includes _ _); [apply settle_keeps_started|]; assumption.
  - apply settle_keeps_started; assumption.
  - destruct (timers s); [assumption|].
    apply settle_keeps_started. exact Hs.
Qed.

Lemma run_keeps_started s events :
  is_Some (backendStarted s) -> is_Some (backendStarted (run s events)).
Proof.
  revert s. induction events as [|e events IH]; intros s Hs; simpl; auto.
  apply IH, handle_keeps_started, Hs.
Qed.

Lemma started_spawned_once s events :
  spawned_once s -> is_Some (backendStarted s) ->
  spawns (run s events) = 1%nat.
Proof.
  intros Hinv Hs.
  pose proof (run_spawned_once s events Hinv) as H.
  destruct (run_keeps_started s events Hs) as [p Hp].
  unfold spawned_once in H. rewrite Hp in H. exact H.
Qed.

(** After a [spawn] that threw, quiet events change nothing of the
    start-up: it stays rejected, the window stays created, no timer is
    pending. *)
Lemma quiet_keeps_rejected s e :
  quiet e = true ->
  backendStarted s = Some Rejected /\ windowCreated s = true /\ timers s = [] ->
  backendStarted (handle s e) = Some Rejected
  /\ windowCreated (handle s e) = true
  /\ timers (handle s e) = [].
Proof.
  intros Hq Hs. destruct e; simpl in *; try discriminate; auto.
  destruct (includes _ _); [discriminate | assumption].
Qed.

Lemma quiet_run_rejected s events :
  Forall (fun e => quiet e = true) events ->
  backendStarted s = Some Rejected /\ windowCreated s = true /\ timers s = [] ->
  backendStarted (run s events) = Some Rejected
  /\ windowCreated (run s events) = true
  /\ timers (run s events) = [].
Proof.
  intros Hq. revert s.
  induction Hq as [|e events He _ IH]; intros s Hs; simpl; auto.
  apply IH, quiet_keeps_rejected; assumption.
Qed.

Lemma startBackend_waiting spawned :
  waiting (handle mainInitialState (AppReady spawned)).
Proof. repeat split. Qed.

Lemma kill_killed (p : ChildProcess.t) :
  ChildProcess.attached p = true ->
  ChildProcess.killed (ChildProcess.kill p) = true.
Proof. intros H. unfold ChildProcess.kill. rewrite H. reflexivity. Qed.

End MainProcess.


(** C1, as stated, fails: the backend has announced itself and then
    terminates with exit code 1 while the application is not quitting.
    The [backend:status] answer still says running, no timer is added, and
    whatever events follow, the process is never spawned a second time. *)
Lemma unrequested_exit_not_supervised :
  isQuitting announcedState = false
  /\ StatusAnswer.running
       (backendStatusAnswer (handle announcedState (ProcessExit 1))) = true
  /\ timers (handle announcedState (ProcessExit 1)) = timers announcedState
  /\ forall events,
       spawns (run (handle announcedState (ProcessExit 1)) events) = 1%nat.
Proof.
  repeat split.
  intros events. apply started_spawned_once; [reflexivity|].
  simpl. eauto.
Qed.

(** C1, amended: the main process registers no handler for the exit of
    the external process. An exit leaves the quitting flag, the start-up
    promise, the timers, the number of spawns, the window and the
    [backend:status] answer as they were, so that no restart is scheduled,
    and in every run of the application the process is spawned at most
    once. *)
Theorem exit_is_not_handled (s : MainState) (code : Z) (events : list Event) :
  isQuitting (handle s (ProcessExit code)) = isQuitting s
  /\ backendStarted (handle s (ProcessExit code)) = backendStarted s
  /\ timers (handle s (ProcessExit code)) = timers s
  /\ spawns (handle s (ProcessExit code)) = spawns s
  /\ windowCreated (handle s (ProcessExit code)) = windowCreated s
  /\ shortcuts (handle s (ProcessExit code)) = shortcuts s
  /\ backendStatusAnswer (handle s (ProcessExit code)) = backendStatusAnswer s
  /\ (spawns (run mainInitialState events) <= 1)%nat.
Proof.
  repeat split.
  - unfold backendStatusAnswer; simpl.
    destruct (backendProcess s); reflexivity.
  - apply spawns_at_most_once.
Qed.

(** C2, as stated, fails: the start-up promise is pending after the
    spawn, a chunk of standard output that contains "Running on" resolves
    it as started, and any other chunk leaves it pending. Readiness is
    read off the console output of the process. *)
Lemma readiness_from_console_output :
  backendStarted (run mainInitialState [AppReady true]) = Some Pending
  /\ backendStarted
       (run mainInitialState
          [AppReady true; StdoutData " * Running on http://127.0.0.1:5000"])
     = Some (Resolved true)
  /\ backendStarted
       (run mainInitialState
          [AppReady true; StdoutData " * Serving Flask app 'app'"])
     = Some Pending.
Proof. repeat split. Qed.

(** C2, amended: while the start-up is pending, a chunk of the standard
    output of the process marks the backend as started exactly when it
    contains "Running on", and otherwise changes nothing; the renderer
    asks the health endpoint once at start-up and records the backend as
    running exactly when the answer has status "healthy", and as not
    running when the call fails. *)
Theorem readiness_is_output_marker (s : MainState) (data : string)
    (st : SystemState) (answer : option HealthAnswer.t) :
  backendStarted s = Some Pending ->
  (includes "Running on" data = true ->
     backendStarted (handle s (StdoutData data)) = Some (Resolved true))
  /\ (includes "Running on" data = false -> handle s (StdoutData data) = s)
  /\ BackendStatus.isRunning (backendStatus (initializeApp st answer))
     = match answer with
       | Some a => String.eqb (HealthAnswer.status a) "healthy"
       | None => false
       end.
Proof.
  intros Hp. repeat split.
  - intros Hin. simpl. rewrite Hin. unfold settle. rewrite Hp. reflexivity.
  - intros Hout. simpl. rewrite Hout. reflexivity.
  - destruct answer; reflexivity.
Qed.

Lemma readiness_is_output_marker_witness :
  backendStarted (handle mainInitialState (AppReady true)) = Some Pending
  /\ backendStarted
       (handle (handle mainInitialState (AppReady true))
          (StdoutData "Running on port 5000"))
     = Some (Resolved true).
Proof.
  split; [reflexivity|].
  apply (readiness_is_output_marker
           (handle mainInitialState (AppReady true)) "Running on port 5000"
           systemInitialState None); reflexivity.
Defined.

(** C3: if, after [spawn] has returned, nothing announces readiness and
    nothing fails before the start-up timer of 10000 ms elapses, the wait
    resolves with the non-ready result [false], and the application goes
    on to create its window; a start-up that fails with an error ends in
    the [catch] and the window is created all the same. When [spawn]
    itself throws, the wait is rejected at once, no timer is set, and the
    [catch] leads to the window as well. *)
Theorem startup_timeout_continues (spawned : bool) (events : list Event) :
  Forall (fun e => quiet e = true) events ->
  timers (run mainInitialState (AppReady spawned :: events)) = [startupTimeout]
  /\ windowCreated (run mainInitialState (AppReady spawned :: events)) = false
  /\ backendStarted
       (run mainInitialState (AppReady spawned :: events ++ [TimerFired]))
     = Some (Resolved false)
  /\ windowCreated
       (run mainInitialState (AppReady spawned :: events ++ [TimerFired]))
     = true
  /\ backendStarted
       (run mainInitialState (AppReady spawned :: events ++ [ProcessError]))
     = Some Rejected
  /\ windowCreated
       (run mainInitialState (AppReady spawned :: events ++ [ProcessError]))
     = true
  /\ backendStarted (run mainInitialState (AppReadySpawnThrew :: events))
     = Some Rejected
  /\ windowCreated (run mainInitialState (AppReadySpawnThrew :: events))
     = true
  /\ timers (run mainInitialState (AppReadySpawnThrew :: events)) = [].
Proof.
  intros Hq.
  pose proof (quiet_run_rejected (handle mainInitialState AppReadySpawnThrew)
                events Hq ltac:(repeat split)) as Hthrew.
  pose proof (quiet_run_waiting _ events Hq (startBackend_waiting spawned))
    as (Hp & Ht & Hw & _).
  change (run mainInitialState (AppReady spawned :: events))
    with (run (handle mainInitialState (AppReady spawned)) events).
  split; [exact Ht|]. split; [exact Hw|].
  change (run mainInitialState (AppReady spawned :: events ++ [TimerFired]))
    with (run (handle mainInitialState (AppReady spawned)) (events ++ [TimerFired])).
  change (run mainInitialState (AppReady spawned :: events ++ [ProcessError]))
    with (run (handle mainInitialState (AppReady spawned)) (events ++ [ProcessError])).
  rewrite !run_snoc.
  set (s := run (handle mainInitialState (AppReady spawned)) events) in *.
  simpl. rewrite Ht. unfold settle; simpl. rewrite Hp.
  repeat split; apply Hthrew.
Qed.

Lemma startup_timeout_continues_witness :
  Forall (fun e => quiet e = true)
    [StderrData "WARNING: This is a development server."; ProcessExit 1]
  /\ backendStarted
       (run mainInitialState
          [AppReady true; StderrData "WARNING: This is a development server.";
           ProcessExit 1; TimerFired])
     = Some (Resolved false).
Proof.
  assert (Hq : Forall (fun e => quiet e = true)
    [StderrData "WARNING: This is a development server."; ProcessExit 1])
    by (repeat constructor).
  split; [exact Hq|].
  exact (proj1 (proj2 (proj2 (startup_timeout_continues true _ Hq)))).
Defined.

(** C5: the ['before-quit'] handler is idempotent. Its first run sets the
    quitting flag, delivers SIGTERM to a backend process that is attached
    and not yet killed and marks it killed, and drops the global
    shortcuts; a second run changes nothing. *)
Theorem beforeQuit_idempotent (s : MainState) (p : ChildProcess.t) :
  handle (handle s BeforeQuit) BeforeQuit = handle s BeforeQuit
  /\ isQuitting (handle s BeforeQuit) = true
  /\ (backendProcess s = Some p ->
      ChildProcess.attached p = true ->
      ChildProcess.killed p = false ->
      backendProcess (handle s BeforeQuit)
      = Some (ChildProcess.mk true true (ChildProcess.signals p ++ [SIGTERM]))).
Proof.
  repeat split.
  - simpl. unfold beforeQuit; simpl.
    destruct (backendProcess s) as [[[] [] sig]|]; reflexivity.
  - intros Hp Ha Hk. simpl. rewrite Hp, Hk. simpl.
    unfold ChildProcess.kill. rewrite Ha. reflexivity.
Qed.

Lemma beforeQuit_idempotent_witness :
  backendProcess announcedState = Some (ChildProcess.mk true false [])
  /\ backendProcess (handle announcedState BeforeQuit)
     = Some (ChildProcess.mk true true [SIGTERM])
  /\ handle (handle announcedState BeforeQuit) BeforeQuit
     = handle announcedState BeforeQuit.
Proof.
  split; [reflexivity|]. split.
  - exact (proj2 (proj2 (beforeQuit_idempotent announcedState
             (ChildProcess.mk true false []))) eq_refl eq_refl eq_refl).
  - exact (proj1 (beforeQuit_idempotent announcedState
             (ChildProcess.mk true false []))).
Defined.

(** ** Properties of the dispatcher *)

Section DispatcherFacts.

Implicit Types (d : Dispatcher.t) (e : DispatcherEvent)
  (events : list DispatcherEvent) (r : AnalysisRequest.t).

Lemma takeInFlight_length i calls r others :
  takeInFlight i calls = Some (r, others) ->
  length calls = S (length others).
Proof.
  revert r others. induction calls as [|c calls IH]; intros r others; simpl.
  - discriminate.
  - destruct (String.eqb (AnalysisRequest.id c) i).
    + intros [= <- <-]. reflexivity.
    + destruct (takeInFlight i calls) as [[found rest]|]; [|discriminate].
      intros [= <- <-]. simpl. f_equal. eapply IH. reflexivity.
Qed.

Lemma takeInFlight_head r calls :
  takeInFlight (AnalysisRequest.id r) (r :: calls) = Some (r, calls).
Proof. simpl. rewrite String.eqb_refl. reflexivity. Qed.

Lemma dispatch_limit d e :
  Dispatcher.concurrencyLimit (dispatch d e) = Dispatcher.concurrencyLimit d.
Proof.
  destruct e; simpl.
  - destruct (Dispatcher.queue d); [reflexivity|].
    destruct (_ && _); reflexivity.
  - destruct (takeInFlight _ _) as [[? ?]|]; reflexivity.
  - reflexivity.
Qed.

(** The admission control: no step takes the calls in flight above the
    limit. *)
Lemma dispatch_bounded d e :
  (length (Dispatcher.inFlight d) <= Dispatcher.concurrencyLimit d)%nat ->
  (length (Dispatcher.inFlight (dispatch d e))
   <= Dispatcher.concurrencyLimit (dispatch d e))%nat.
Proof.
  intros H. rewrite dispatch_limit. destruct e; simpl.
  - destruct (Dispatcher.queue d) as [|r waiting]; [exact H|].
    destruct (negb (Dispatcher.cancelled d)); simpl; [|exact H].
    destruct (Nat.ltb_spec (length (Dispatcher.inFlight d))
                (Dispatcher.concurrencyLimit d)); simpl; [|exact H].
    rewrite length_app. simpl. lia.
  - destruct (takeInFlight _ _) as [[r others]|] eqn:E; simpl; [|exact H].
    apply takeInFlight_length in E. lia.
  - exact H.
Qed.

Lemma dispatchAll_bounded d events :
  (length (Dispatcher.inFlight d) <= Dispatcher.concurrencyLimit d)%nat ->
  (length (Dispatcher.inFlight (dispatchAll d events))
   <= Dispatcher.concurrencyLimit (dispatchAll d events))%nat.
Proof.
  revert d. induction events as [|e events IH]; intros d H; simpl; auto.
  apply IH, dispatch_bounded, H.
Qed.

Lemma dispatchAll_limit d events :
  Dispatcher.concurrencyLimit (dispatchAll d events)
  = Dispatcher.concurrencyLimit d.
Proof.
  revert d. induction events as [|e events IH]; intros d; simpl; auto.
  rewrite IH. apply dispatch_limit.
Qed.

Lemma pump_full d :
  length (Dispatcher.inFlight d) = Dispatcher.concurrencyLimit d ->
  dispatch d Pump = d.
Proof.
  intros H. simpl. destruct (Dispatcher.queue d); [reflexivity|].
  rewrite H, Nat.ltb_irrefl, andb_false_r. reflexivity.
Qed.

Lemma takeInFlight_perm i calls r others :
  takeInFlight i calls = Some (r, others) -> calls ≡ₚ r :: others.
Proof.
  revert r others. induction calls as [|c calls IH]; intros r others; simpl.
  - discriminate.
  - destruct (String.eqb (AnalysisRequest.id c) i).
    + intros [= <- <-]. reflexivity.
    + destruct (takeInFlight i calls) as [[found rest]|]; [|discriminate].
      intros [= <- <-]. rewrite (IH found rest eq_refl). apply Permutation_swap.
Qed.

Lemma requestId_outcomeOf r result :
  AnalysisOutcome.requestId (outcomeOf r result) = AnalysisRequest.id r.
Proof. destruct result; reflexivity. Qed.

(** The token, once signalled, stays signalled. *)
Lemma dispatchAll_cancelled d events :
  Dispatcher.cancelled d = true ->
  Dispatcher.cancelled (dispatchAll d events) = true.
Proof.
  revert d. induction events as [|e events IH]; intros d H; simpl; auto.
  apply IH. destruct e; simpl.
  - destruct (Dispatcher.queue d); [exact H|].
    destruct (_ && _); exact H.
  - destruct (takeInFlight _ _) as [[? ?]|]; exact H.
  - reflexivity.
Qed.

(** The identifiers the dispatcher holds: settled, in flight, queued. *)
Lemma dispatch_conserves d e :
  Dispatcher.cancelled (dispatch d e) = false ->
  map AnalysisOutcome.requestId (Dispatcher.outcomes (dispatch d e))
  ++ map AnalysisRequest.id (Dispatcher.inFlight (dispatch d e))
  ++ map AnalysisRequest.id (Dispatcher.queue (dispatch d e))
  ≡ₚ map AnalysisOutcome.requestId (Dispatcher.outcomes d)
     ++ map AnalysisRequest.id (Dispatcher.inFlight d)
     ++ map AnalysisRequest.id (Dispatcher.queue d).
Proof.
  destruct d as [lim q fl out c]. destruct e; simpl.
  - destruct q as [|r waiting]; [reflexivity|].
    destruct (_ && _); [|reflexivity]. simpl. intros _.
    rewrite map_app, <- app_assoc. reflexivity.
  - destruct (takeInFlight _ _) as [[r others]|] eqn:E; [|reflexivity].
    simpl. intros _. apply takeInFlight_perm in E.
    rewrite map_app, <- app_assoc. simpl. rewrite requestId_outcomeOf.
    apply Permutation_app_head.
    rewrite (Permutation_map AnalysisRequest.id E). reflexivity.
  - discriminate.
Qed.

Lemma dispatchAll_conserves d events :
  Dispatcher.cancelled (dispatchAll d events) = false ->
  map AnalysisOutcome.requestId (Dispatcher.outcomes (dispatchAll d events))
  ++ map AnalysisRequest.id (Dispatcher.inFlight (dispatchAll d events))
  ++ map AnalysisRequest.id (Dispatcher.queue (dispatchAll d events))
  ≡ₚ map AnalysisOutcome.requestId (Dispatcher.outcomes d)
     ++ map AnalysisRequest.id (Dispatcher.inFlight d)
     ++ map AnalysisRequest.id (Dispatcher.queue d).
Proof.
  revert d. induction events as [|e events IH]; intros d H; simpl in *.
  - reflexivity.
  - rewrite (IH _ H). apply dispatch_conserves.
    destruct (Dispatcher.cancelled (dispatch d e)) eqn:E; [|reflexivity].
    rewrite (dispatchAll_cancelled _ events E) in H. discriminate.
Qed.

(** What is still to be done in a drain: a queued request costs a start
    and a settlement, a call in flight a settlement. *)
Lemma drain_outcomes answer fuel d :
  Dispatcher.cancelled d = false ->
  (0 < Dispatcher.concurrencyLimit d)%nat ->
  (2 * length (Dispatcher.queue d) + length (Dispatcher.inFlight d) <= fuel)%nat ->
  Dispatcher.outcomes (drain fuel answer d)
  = Dispatcher.outcomes d
    ++ map (fun r => outcomeOf r (answer r))
         (Dispatcher.inFlight d ++ Dispatcher.queue d)
  /\ Dispatcher.queue (drain fuel answer d) = []
  /\ Dispatcher.inFlight (drain fuel answer d) = []
  /\ Dispatcher.cancelled (drain fuel answer d) = false.
Proof.
  revert d. induction fuel as [|fuel IH]; intros d Hc Hl Hf.
  - destruct d as [lim q fl out c]; simpl in *.
    destruct q; [|simpl in Hf; lia]. destruct fl; [|simpl in Hf; lia].
    simpl. rewrite app_nil_r. auto.
  - destruct d as [lim q fl out c]; simpl in *. subst c.
    destruct q as [|r q].
    + destruct fl as [|f fl]; simpl.
      * rewrite app_nil_r. auto.
      * rewrite String.eqb_refl.
        destruct (IH (Dispatcher.mk lim [] fl (out ++ [outcomeOf f (answer f)]) false))
          as (Ho & Hq & Hfl & Hcc); simpl in *; try lia; auto.
        rewrite Ho, <- app_assoc. auto.
    + simpl. destruct (Nat.ltb_spec (length fl) lim) as [Hlt | Hge].
      * destruct (IH (Dispatcher.mk lim q (fl ++ [r]) out false))
          as (Ho & Hq & Hfl & Hcc); simpl in *; auto.
        { rewrite length_app; simpl; lia. }
        rewrite Ho, <- app_assoc. auto.
      * destruct fl as [|f fl]; [simpl in Hge; lia|].
        simpl. rewrite String.eqb_refl.
        destruct (IH (Dispatcher.mk lim (r :: q) fl (out ++ [outcomeOf f (answer f)]) false))
          as (Ho & Hq & Hfl & Hcc); simpl in *; try lia; auto.
        rewrite Ho, <- app_assoc. auto.
Qed.

End DispatcherFacts.

(** C4: from the submission on, whatever the order in which calls are
    started, settle or the batch is cancelled, the number of inference
    calls in flight never exceeds the [concurrencyLimit] given to
    [submit]; when it equals the limit, an attempt to start another call
    starts nothing and the queued requests stay queued. *)
Theorem in_flight_bounded (status : ServiceState)
    (batch : list AnalysisRequest.t) (limit : nat) (d : Dispatcher.t)
    (events : list DispatcherEvent) :
  submit status batch limit = inr d ->
  (length (Dispatcher.inFlight (dispatchAll d events)) <= limit)%nat
  /\ (length (Dispatcher.inFlight (dispatchAll d events)) = limit ->
      dispatch (dispatchAll d events) Pump = dispatchAll d events).
Proof.
  intros Hsubmit.
  assert (Hd : d = Dispatcher.mk limit batch [] [] false).
  { unfold submit in Hsubmit. destruct status; congruence. }
  assert (Hlimit : Dispatcher.concurrencyLimit (dispatchAll d events) = limit).
  { rewrite dispatchAll_limit, Hd. reflexivity. }
  split.
  - rewrite <- Hlimit. apply dispatchAll_bounded.
    rewrite Hd. simpl. lia.
  - intros Hfull. apply pump_full. congruence.
Qed.

Lemma in_flight_bounded_witness :
  submit Ready fiveImages 2 = inr (Dispatcher.mk 2 fiveImages [] [] false)
  /\ (length (Dispatcher.inFlight
                (dispatchAll (Dispatcher.mk 2 fiveImages [] [] false)
                   [Pump; Pump; Pump; Settled "1" glioma; Pump; Pump]))
      <= 2)%nat.
Proof.
  split; [reflexivity|].
  exact (proj1 (in_flight_bounded Ready fiveImages 2 _
                  [Pump; Pump; Pump; Settled "1" glioma; Pump; Pump] eq_refl)).
Defined.

(** C7: a failed inference call is recorded as the outcome of its own
    request, with [success = false] and the kind of the error, and touches
    nothing else: the queued requests, the other calls in flight, the
    outcomes recorded before and the cancellation token are as they were.
    In whatever order calls are started and settle, and however they
    settle, no request of a batch that is not cancelled gets lost: the
    requests with an outcome, in flight and queued are those submitted.
    Run to its end under a positive limit, the batch yields one outcome
    per request, each decided by the answer to that request alone,
    whichever of the others fail. In the store, [addResult] appends the
    result, failed or not, after the results recorded before and leaves
    the rest of the analysis state alone. *)
Theorem item_failure_is_own_outcome (d : Dispatcher.t)
    (r : AnalysisRequest.t) (others : list AnalysisRequest.t)
    (kind : ErrorKind) (batch : list AnalysisRequest.t) (limit : nat)
    (answer : AnalysisRequest.t -> CallResult)
    (events : list DispatcherEvent)
    (st : AnalysisState) (result : AnalysisResult.t) :
  takeInFlight (AnalysisRequest.id r) (Dispatcher.inFlight d) = Some (r, others) ->
  (0 < limit)%nat ->
  dispatch d (Settled (AnalysisRequest.id r) (CallFailed kind))
  = Dispatcher.mk (Dispatcher.concurrencyLimit d) (Dispatcher.queue d) others
      (Dispatcher.outcomes d
       ++ [AnalysisOutcome.mk (AnalysisRequest.id r) false None None (Some kind)])
      (Dispatcher.cancelled d)
  /\ (Dispatcher.cancelled
        (dispatchAll (Dispatcher.mk limit batch [] [] false) events) = false ->
      map AnalysisOutcome.requestId
        (Dispatcher.outcomes
           (dispatchAll (Dispatcher.mk limit batch [] [] false) events))
      ++ map AnalysisRequest.id
           (Dispatcher.inFlight
              (dispatchAll (Dispatcher.mk limit batch [] [] false) events))
      ++ map AnalysisRequest.id
           (Dispatcher.queue
              (dispatchAll (Dispatcher.mk limit batch [] [] false) events))
      ≡ₚ map AnalysisRequest.id batch)
  /\ Dispatcher.outcomes
       (drain (2 * length batch) answer (Dispatcher.mk limit batch [] [] false))
     = map (fun q => outcomeOf q (answer q)) batch
  /\ Dispatcher.queue
       (drain (2 * length batch) answer (Dispatcher.mk limit batch [] [] false))
     = []
  /\ Dispatcher.inFlight
       (drain (2 * length batch) answer (Dispatcher.mk limit batch [] [] false))
     = []
  /\ addResult st result
     = {| images := images st;
          currentImageIndex := currentImageIndex st;
          results := results st ++ [result];
          isAnalyzing := isAnalyzing st;
          analysisProgress := analysisProgress st;
          currentAnalysisType := currentAnalysisType st;
          batchMode := batchMode st;
          selectedResults := selectedResults st |}.
Proof.
  intros Htake Hlimit.
  split.
  { simpl. rewrite Htake. reflexivity. }
  split.
  { intros Hlive. apply (dispatchAll_conserves _ events Hlive). }
  destruct (drain_outcomes answer (2 * length batch)
              (Dispatcher.mk limit batch [] [] false))
    as (Ho & Hq & Hfl & _); [reflexivity | exact Hlimit | simpl; lia |].
  cbn [Dispatcher.outcomes Dispatcher.inFlight Dispatcher.queue app] in Ho.
  rewrite Ho, Hq, Hfl. auto.
Qed.

Lemma item_failure_is_own_outcome_witness :
  takeInFlight "2" [request "1"; request "2"] = Some (request "2", [request "1"])
  /\ (0 < 2)%nat
  /\ map AnalysisOutcome.success
       (Dispatcher.outcomes
          (drain 10 failsSecondAndFourth (Dispatcher.mk 2 fiveImages [] [] false)))
     = [true; false; true; false; true].
Proof.
  assert (Htake : takeInFlight (AnalysisRequest.id (request "2"))
            (Dispatcher.inFlight
               (Dispatcher.mk 2 [request "3"] [request "1"; request "2"] [] false))
          = Some (request "2", [request "1"])) by reflexivity.
  assert (Hpos : (0 < 2)%nat) by lia.
  split; [exact Htake|]. split; [exact Hpos|].
  pose proof (proj1 (proj2 (proj2 (item_failure_is_own_outcome _ _ _ ServiceError
                fiveImages 2 failsSecondAndFourth [] initialState
                (AnalysisResult.mk "2" "2.png" brain "" 0%float []
                   (MedicalInfo.mk "" "" "" BAJO "") "" false (Some "HTTP 500"))
                Htake Hpos)))) as H.
  change (2 * length fiveImages)%nat with 10%nat in H.
  rewrite H. reflexivity.
Defined.

(** ** Properties of the result aggregator *)

Section AggregatorFacts.

Implicit Types (b s : BatchRun.t) (e : AggregatorEvent)
  (events : list AggregatorEvent) (r : AnalysisRequest.t)
  (m : gmap string AnalysisOutcome.t).


(** As many outcomes as requests, for requests with distinct
    identifiers: every request has its outcome. *)
Lemma all_outcomes_arrived (requests : list AnalysisRequest.t) m r :
  NoDup (map AnalysisRequest.id requests) ->
  dom m ⊆ list_to_set (map AnalysisRequest.id requests) ->
  size m = length requests ->
  r ∈ requests ->
  missing m r = false.
Proof.
  intros Hnodup Hdom Hsize Hr.
  assert (Heq : dom m = list_to_set (map AnalysisRequest.id requests)).
  { apply set_subseteq_size_eq; [exact Hdom|].
    rewrite size_dom, size_list_to_set, length_map by exact Hnodup. lia. }
  assert (Hin : AnalysisRequest.id r ∈ dom m).
  { rewrite Heq, elem_of_list_to_set.
    apply list_elem_of_In, in_map, list_elem_of_In, Hr. }
  apply elem_of_dom in Hin as [o Ho].
  unfold missing. rewrite Ho. reflexivity.
Qed.



Lemma forallb_succeeded (requests : list AnalysisRequest.t) m :
  forallb (succeeded m) requests = true
  <-> forall r, r ∈ requests -> succeeded m r = true.
Proof.
  rewrite forallb_forall. split; intros H r Hr; apply H, list_elem_of_In, Hr.
Qed.

Lemma existsb_elem (f : AnalysisRequest.t -> bool)
    (requests : list AnalysisRequest.t) :
  existsb f requests = true <-> exists r, r ∈ requests /\ f r = true.
Proof.
  rewrite existsb_exists. split; intros (r & Hr & Hf); exists r;
    (split; [apply list_elem_of_In, Hr | exact Hf]).
Qed.

(** The statuses the rule names, and when. *)
Lemma finalStatus_spec (requests : list AnalysisRequest.t) m st :
  finalStatus requests m = Some st
  <-> (st = Completed /\ forall r, r ∈ requests -> succeeded m r = true)
      \/ (st = PartiallyFailed
          /\ (exists r, r ∈ requests /\ succeeded m r = true)
          /\ (exists r, r ∈ requests
                        /\ (failed m r = true \/ missing m r = true))).
Proof.
  unfold finalStatus.
  destruct (forallb (succeeded m) requests) eqn:Eall.
  - pose proof (proj1 (forallb_succeeded requests m) Eall) as Hall.
    clear Eall. rename Hall into Eall. split.
    + intros [= <-]. left. split; [reflexivity | exact Eall].
    + intros [[-> _] | (_ & _ & r & Hr & Hbad)]; [reflexivity|].
      exfalso. specialize (Eall r Hr).
      unfold succeeded, failed, missing in *.
      destruct (m !! AnalysisRequest.id r) as [o|]; [|discriminate].
      rewrite Eall in Hbad. destruct Hbad; discriminate.
  - assert (Hnot : ~ forall r, r ∈ requests -> succeeded m r = true).
    { intros H. pose proof (proj2 (forallb_succeeded requests m) H). congruence. }
    destruct (existsb (succeeded m) requests
              && existsb (fun r => failed m r || missing m r) requests) eqn:Eex.
    + apply andb_true_iff in Eex as [Hs Hf].
      pose proof (proj1 (existsb_elem _ requests) Hs) as Hs'.
      pose proof (proj1 (existsb_elem _ requests) Hf) as Hf'.
      clear Hs Hf. rename Hs' into Hs. rename Hf' into Hf.
      destruct Hf as (r & Hr & Hf). apply orb_true_iff in Hf.
      split.
      * intros [= <-]. right. split; [reflexivity|]. split; [exact Hs | eauto].
      * intros [[_ H] | [-> _]]; [contradiction | reflexivity].
    + split; [discriminate|].
      intros [[_ H] | (_ & Hs & r & Hr & Hf)]; [contradiction|]. exfalso.
      pose proof (proj2 (existsb_elem _ requests) Hs) as Hs'.
      clear Hs. rename Hs' into Hs.
      assert (Hf' : existsb (fun r => failed m r || missing m r) requests = true).
      { apply existsb_elem. exists r. split; [exact Hr|].
        apply orb_true_iff. exact Hf. }
      rewrite Hs, Hf' in Eex. discriminate.
Qed.


(** The rule names no status for a batch without any success. *)
Lemma finalStatus_none_without_success (requests : list AnalysisRequest.t) m :
  requests <> [] ->
  (forall r, r ∈ requests -> succeeded m r = false) ->
  finalStatus requests m = None.
Proof.
  intros Hne Hnone.
  destruct (finalStatus requests m) as [st|] eqn:Est; [|reflexivity].
  exfalso. apply finalStatus_spec in Est
    as [[_ Hall] | (_ & (r & Hr & Hs) & _)].
  - destruct requests as [|r rest]; [congruence|].
    specialize (Hall r (list_elem_of_here _ _)).
    specialize (Hnone r (list_elem_of_here _ _)). congruence.
  - specialize (Hnone r Hr). congruence.
Qed.


End AggregatorFacts.


(** The rule of section 3 leaves a batch without any success with no
    status at all: for one request whose call timed out, the aggregator
    has no next state, and no terminal status satisfies the rule. *)
Lemma failed_batch_has_no_status :
  aggregateAll (createBatch "batch-2" [request "1"]) onlyCallTimedOut = None
  /\ forall st, st <> Running ->
       ~ statusRule [request "1"]
           {[ "1" := outcomeOf (request "1") (CallFailed CallTimeout) ]}
           (cancelledEarly (createBatch "batch-2" [request "1"])
              onlyCallTimedOut)
           st.
Proof.
  split; [reflexivity|].
  intros st Hterminal (Hcompleted & Hpartial & Haborted).
  destruct st; [congruence | | |].
  - destruct Hcompleted as [Hall _].
    specialize (Hall eq_refl (request "1") (list_elem_of_here _ _)).
    discriminate Hall.
  - destruct Hpartial as [Hsome _].
    destruct (Hsome eq_refl) as [(r & Hr & Hs) _].
    apply list_elem_of_singleton in Hr as ->. discriminate Hs.
  - destruct Haborted as [Hearly _].
    destruct (Hearly eq_refl) as (before & after & s & Heq & _).
    destruct before as [|e [|e' before]]; discriminate.
Qed.



(** ** Further properties of the analysis slice *)

Section Selection.

Implicit Types (i j : string) (l : list string) (st : AnalysisState).

Lemma toggled_head i l : toggled i (i :: l) = l.
Proof. unfold toggled. simpl. rewrite String.eqb_refl. reflexivity. Qed.

Lemma toggled_tail i j l : j <> i -> toggled i (j :: l) = j :: toggled i l.
Proof.
  intros Hne. unfold toggled. simpl.
  apply String.eqb_neq in Hne. rewrite Hne.
  destruct (indexOf i l); reflexivity.
Qed.

Lemma toggled_absent i l : i ∉ l -> toggled i l = l ++ [i].
Proof.
  induction l as [|j l IH]; intros Hnot.
  - reflexivity.
  - apply not_elem_of_cons in Hnot as [Hne Hnot].
    rewrite toggled_tail by congruence. rewrite IH by exact Hnot. reflexivity.
Qed.

Lemma toggled_elem i j l : j ∈ toggled i l -> j = i \/ j ∈ l.
Proof.
  induction l as [|x l IH].
  - unfold toggled. simpl. intros H. apply list_elem_of_singleton in H. auto.
  - destruct (decide (x = i)) as [-> | Hne].
    + rewrite toggled_head. intros H. right. right. exact H.
    + rewrite toggled_tail by exact Hne.
      intros H. apply elem_of_cons in H as [-> | H].
      * right. left.
      * destruct (IH H) as [-> | Hin]; [left; reflexivity | right; right; exact Hin].
Qed.

Lemma toggled_flips i l :
  NoDup l ->
  NoDup (toggled i l)
  /\ (i ∈ toggled i l <-> i ∉ l)
  /\ (forall j, j <> i -> (j ∈ toggled i l <-> j ∈ l)).
Proof.
  induction l as [|x l IH]; intros Hnd.
  - unfold toggled; simpl. split; [apply NoDup_singleton|].
    split.
    + split; [intros _; apply not_elem_of_nil | intros _; left].
    + intros j Hne. rewrite list_elem_of_singleton.
      split; [contradiction | intros H; inversion H].
  - apply NoDup_cons in Hnd as [Hx Hnd].
    destruct (decide (x = i)) as [-> | Hne].
    + rewrite toggled_head. split; [exact Hnd|]. split.
      * split; [contradiction | intros H; exfalso; apply H; left].
      * intros j Hj. rewrite elem_of_cons. tauto.
    + rewrite toggled_tail by exact Hne.
      destruct (IH Hnd) as (Hnd' & Hi & Hj).
      split; [|split].
      * apply NoDup_cons. split; [|exact Hnd'].
        rewrite (Hj x Hne). exact Hx.
      * rewrite !elem_of_cons, Hi. split.
        -- intros [-> | H]; [contradiction|]. intros [-> | H']; tauto.
        -- intros H. right. intros Hin. apply H. right. exact Hin.
      * intros j Hji. rewrite !elem_of_cons, (Hj j Hji). tauto.
Qed.

Lemma toggled_twice_absent i l : i ∉ l -> toggled i (toggled i l) = l.
Proof.
  induction l as [|x l IH]; intros Hnot.
  - unfold toggled at 2. simpl. apply toggled_head.
  - apply not_elem_of_cons in Hnot as [Hne Hnot].
    rewrite (toggled_tail i x l) by congruence.
    rewrite toggled_tail by congruence.
    rewrite IH by exact Hnot. reflexivity.
Qed.

Lemma toggled_twice_present i l :
  NoDup l -> i ∈ l -> toggled i (toggled i l) ≡ₚ l.
Proof.
  induction l as [|x l IH]; intros Hnd Hin.
  - inversion Hin.
  - apply NoDup_cons in Hnd as [Hx Hnd].
    destruct (decide (x = i)) as [-> | Hne].
    + rewrite toggled_head, toggled_absent by exact Hx.
      symmetry. apply Permutation_cons_append.
    + apply elem_of_cons in Hin as [-> | Hin]; [contradiction|].
      rewrite (toggled_tail i x l) by exact Hne.
      rewrite toggled_tail by exact Hne.
      rewrite IH by assumption. reflexivity.
Qed.

Lemma filter_keeps_all {A} (f : A -> bool) (l : list A) :
  (forall x, x ∈ l -> f x = true) -> List.filter f l = l.
Proof.
  induction l as [|x l IH]; intros H; simpl; [reflexivity|].
  rewrite (H x) by left. rewrite IH; [reflexivity|].
  intros y Hy. apply H. right. exact Hy.
Qed.

Lemma filter_ids_results i (rs : list AnalysisResult.t) :
  map AnalysisResult.id (List.filter (keeps_result i) rs)
  = List.filter (keeps_id i) (map AnalysisResult.id rs).
Proof.
  induction rs as [|r rs IH]; simpl; [reflexivity|].
  unfold keeps_result at 1, keeps_id at 1.
  destruct (negb _); simpl; rewrite IH; reflexivity.
Qed.

Lemma elem_of_filter_bool {A} (f : A -> bool) (l : list A) x :
  x ∈ List.filter f l <-> x ∈ l /\ f x = true.
Proof. rewrite !list_elem_of_In. apply filter_In. Qed.

Lemma keeps_id_true i j : keeps_id i j = true <-> j <> i.
Proof.
  unfold keeps_id. rewrite negb_true_iff. apply String.eqb_neq.
Qed.

End Selection.

(** X1: on a selection without duplicates, [toggleResultSelection] flips
    the membership of the given id and of no other, and the selection
    stays without duplicates. *)
Theorem toggleResultSelection_flips (st : AnalysisState) (i : string) :
  NoDup (selectedResults st) ->
  NoDup (selectedResults (toggleResultSelection st i))
  /\ (i ∈ selectedResults (toggleResultSelection st i)
      <-> i ∉ selectedResults st)
  /\ (forall j, j <> i ->
        (j ∈ selectedResults (toggleResultSelection st i)
         <-> j ∈ selectedResults st)).
Proof. intros Hnd. simpl. apply toggled_flips, Hnd. Qed.

Lemma toggleResultSelection_flips_witness :
  NoDup (selectedResults two_result_state)
  /\ ("r2" ∈ selectedResults (toggleResultSelection two_result_state "r2")
      <-> "r2" ∉ selectedResults two_result_state).
Proof.
  assert (Hnd : NoDup (selectedResults two_result_state))
    by (apply NoDup_singleton).
  split; [exact Hnd|].
  exact (proj1 (proj2 (toggleResultSelection_flips two_result_state "r2" Hnd))).
Defined.

(** X2: toggling the same id twice gives back the state when the id was
    not selected; when it was selected (once), the selection has the same
    ids again, the toggled one now at the end. *)
Theorem toggleResultSelection_twice (st : AnalysisState) (i : string) :
  (i ∉ selectedResults st ->
     toggleResultSelection (toggleResultSelection st i) i = st)
  /\ (NoDup (selectedResults st) -> i ∈ selectedResults st ->
      (selectedResults (toggleResultSelection (toggleResultSelection st i) i)
       ≡ₚ selectedResults st)
      /\ last (selectedResults
                 (toggleResultSelection (toggleResultSelection st i) i))
         = Some i).
Proof.
  split.
  - intros Hnot. destruct st as [im ix rs an pr ty bm sel]; simpl in *.
    unfold toggleResultSelection; simpl.
    rewrite toggled_twice_absent by exact Hnot. reflexivity.
  - intros Hnd Hin. simpl. split; [apply toggled_twice_present; assumption|].
    destruct (toggled_flips i (selectedResults st) Hnd) as (_ & Hi & _).
    rewrite toggled_absent by (rewrite Hi; tauto).
    apply last_snoc.
Qed.

Lemma toggleResultSelection_twice_witness :
  ("r1" ∉ selectedResults two_result_state)
  /\ toggleResultSelection (toggleResultSelection two_result_state "r1") "r1"
     = two_result_state.
Proof.
  assert (Hnot : "r1" ∉ selectedResults two_result_state).
  { simpl. intros H. apply list_elem_of_singleton in H. discriminate H. }
  split; [exact Hnot|].
  exact (proj1 (toggleResultSelection_twice two_result_state "r1") Hnot).
Defined.

Section SelectionConsistency.

Implicit Types (st : AnalysisState) (a : AnalysisAction).

Lemma reducer_keeps_selection st a :
  selection_safe a = true ->
  selection_consistent st ->
  selection_consistent (analysisReducer st a).
Proof.
  unfold selection_consistent.
  intros Hsafe Hst. destruct a; simpl in *; try discriminate; try exact Hst.
  - intros i Hi. rewrite map_app. apply elem_of_app. left. apply Hst, Hi.
  - intros i Hi. inversion Hi.
  - intros i Hi. rewrite filter_ids_results.
    apply elem_of_filter_bool in Hi as [Hi Hkeep].
    apply elem_of_filter_bool. split; [apply Hst, Hi | exact Hkeep].
  - intros i Hi. exact Hi.
  - intros i Hi. inversion Hi.
Qed.

Lemma run_keeps_selection st (actions : list AnalysisAction) :
  Forall (fun a => selection_safe a = true) actions ->
  selection_consistent st ->
  selection_consistent (analysisRun st actions).
Proof.
  intros Hsafe. revert st.
  induction Hsafe as [|a actions Ha _ IH]; intros st Hst; simpl; [exact Hst|].
  apply IH, reducer_keeps_selection; assumption.
Qed.

End SelectionConsistency.

(** X3: that every selected id belongs to a recorded result holds
    initially and is kept by every action other than [setResults] and
    [toggleResultSelection]; toggling keeps it when the id is that of a
    recorded result. *)
Theorem selection_stays_consistent (st : AnalysisState)
    (actions : list AnalysisAction) (i : string) :
  Forall (fun a => selection_safe a = true) actions ->
  selection_consistent (analysisRun initialState actions)
  /\ (selection_consistent st ->
      selection_consistent (analysisRun st actions))
  /\ (selection_consistent st ->
      i ∈ map AnalysisResult.id (results st) ->
      selection_consistent (toggleResultSelection st i)).
Proof.
  intros Hsafe. split; [|split].
  - apply run_keeps_selection; [exact Hsafe|]. intros j Hj. inversion Hj.
  - apply run_keeps_selection, Hsafe.
  - intros Hst Hi j Hj. simpl in *.
    destruct (toggled_elem i j _ Hj) as [-> | Hin]; [exact Hi | apply Hst, Hin].
Qed.

Lemma selection_stays_consistent_witness :
  Forall (fun a => selection_safe a = true)
    [AddResult (result_with_id "r1" true); SelectAllResults; RemoveResult "r1"]
  /\ selection_consistent
       (analysisRun initialState
          [AddResult (result_with_id "r1" true); SelectAllResults;
           RemoveResult "r1"]).
Proof.
  assert (Hsafe : Forall (fun a => selection_safe a = true)
    [AddResult (result_with_id "r1" true); SelectAllResults; RemoveResult "r1"])
    by (repeat constructor).
  split; [exact Hsafe|].
  exact (proj1 (selection_stays_consistent initialState _ "r1" Hsafe)).
Defined.

(** X4: [removeResult] leaves no result and no selected id with the given
    id and keeps every other result and selected id; removing a result
    just added under an id that was neither recorded nor selected gives
    back the state. *)
Theorem removeResult_removes (st : AnalysisState) (i : string)
    (r : AnalysisResult.t) :
  (i ∉ map AnalysisResult.id (results (removeResult st i)))
  /\ (i ∉ selectedResults (removeResult st i))
  /\ (forall q, AnalysisResult.id q <> i ->
        (q ∈ results (removeResult st i) <-> q ∈ results st))
  /\ (forall j, j <> i ->
        (j ∈ selectedResults (removeResult st i) <-> j ∈ selectedResults st))
  /\ (AnalysisResult.id r ∉ map AnalysisResult.id (results st) ->
      AnalysisResult.id r ∉ selectedResults st ->
      removeResult (addResult st r) (AnalysisResult.id r) = st).
Proof.
  simpl. split; [|split; [|split; [|split]]].
  - rewrite filter_ids_results, elem_of_filter_bool, keeps_id_true. tauto.
  - rewrite elem_of_filter_bool, keeps_id_true. tauto.
  - intros q Hq. rewrite elem_of_filter_bool. unfold keeps_result.
    rewrite negb_true_iff, String.eqb_neq. tauto.
  - intros j Hj. rewrite elem_of_filter_bool, keeps_id_true. tauto.
  - intros Hfresh Hsel.
    destruct st as [im ix rs an pr ty bm sel]; simpl in *.
    unfold removeResult, addResult; simpl.
    rewrite List.filter_app. simpl.
    unfold keeps_result at 2. rewrite String.eqb_refl. simpl.
    rewrite app_nil_r.
    rewrite !filter_keeps_all; [reflexivity | |].
    + intros j Hj. apply keeps_id_true. intros ->. contradiction.
    + intros q Hq. unfold keeps_result. rewrite negb_true_iff, String.eqb_neq.
      intros Heq. apply Hfresh. rewrite <- Heq.
      apply list_elem_of_In, in_map, list_elem_of_In, Hq.
Qed.

Lemma removeResult_removes_witness :
  (AnalysisResult.id (result_with_id "r3" true)
     ∉ map AnalysisResult.id (results two_result_state))
  /\ removeResult (addResult two_result_state (result_with_id "r3" true)) "r3"
     = two_result_state.
Proof.
  assert (Hfresh : AnalysisResult.id (result_with_id "r3" true)
            ∉ map AnalysisResult.id (results two_result_state)).
  { simpl. intros H. apply list_elem_of_In in H. simpl in H.
    destruct H as [H | [H | []]]; discriminate H. }
  assert (Hsel : AnalysisResult.id (result_with_id "r3" true)
            ∉ selectedResults two_result_state).
  { simpl. intros H. apply list_elem_of_singleton in H. discriminate H. }
  split; [exact Hfresh|].
  exact (proj2 (proj2 (proj2 (proj2
           (removeResult_removes two_result_state "r3"
              (result_with_id "r3" true))))) Hfresh Hsel).
Defined.

(** X5: selecting all results and removing a result commute: either way
    the selection is the ids of the results that remain. *)
Theorem selectAll_removeResult_commute (st : AnalysisState) (i : string) :
  removeResult (selectAllResults st) i = selectAllResults (removeResult st i)
  /\ selectedResults (removeResult (selectAllResults st) i)
     = map AnalysisResult.id (results (removeResult st i)).
Proof.
  unfold removeResult, selectAllResults; simpl.
  rewrite filter_ids_results. split; reflexivity.
Qed.

Section ImageIndex.

Implicit Types (st : AnalysisState) (a : AnalysisAction).

Lemma filter_unknown_id (i : string) (imgs : list ImageFile.t) :
  id_count i imgs = 0%nat -> List.filter (keeps_image i) imgs = imgs.
Proof.
  unfold id_count, keeps_image.
  induction imgs as [|img imgs IH]; simpl; [reflexivity|].
  destruct (String.eqb (ImageFile.id img) i); simpl; [discriminate|].
  intros H. rewrite IH by exact H. reflexivity.
Qed.

Lemma id_count_removed (i : string) (imgs : list ImageFile.t) :
  id_count i (List.filter (keeps_image i) imgs) = 0%nat.
Proof.
  unfold id_count, keeps_image.
  induction imgs as [|img imgs IH]; simpl; [reflexivity|].
  destruct (String.eqb (ImageFile.id img) i) eqn:E; simpl; [exact IH|].
  rewrite E. exact IH.
Qed.

Lemma removeImage_keeps_valid st (i : string) :
  valid_position st ->
  (id_count i (images st) <= 1)%nat ->
  valid_position (removeImage st i).
Proof.
  intros Hvalid Hcount. unfold valid_position in *.
  rewrite removeImage_index.
  pose proof (removeImage_length st i) as Hlen.
  assert (Hnonneg : 0 <= images_length (removeImage st i))
    by (unfold images_length; lia).
  generalize dependent (images_length (removeImage st i)).
  intros len' Hlen Hnonneg.
  destruct (Z.leb_spec len' (currentImageIndex st));
    destruct (Z.ltb_spec 0 (currentImageIndex st)); simpl; lia.
Qed.

Lemma removeImage_unknown st (i : string) :
  valid_position st ->
  id_count i (images st) = 0%nat ->
  removeImage st i = st.
Proof.
  intros Hvalid Hcount.
  destruct st as [im ix rs an pr ty bm sel].
  unfold valid_position, images_length in Hvalid. simpl in *.
  unfold removeImage; simpl.
  rewrite (filter_unknown_id i im Hcount).
  replace ((Z.of_nat (length im) <=? ix) && (0 <? ix)) with false;
    [reflexivity|].
  symmetry. apply andb_false_iff.
  destruct Hvalid as [[_ Hlt] | [-> _]].
  - left. apply Z.leb_gt. exact Hlt.
  - right. reflexivity.
Qed.

Lemma reducer_keeps_valid st a :
  index_safe a = true -> valid_position st ->
  valid_position (analysisReducer st a).
Proof.
  intros Hsafe Hvalid.
  destruct a; simpl in *; try discriminate; try exact Hvalid.
  - unfold valid_position, images_length; simpl. lia.
  - unfold valid_position, images_length in *; simpl.
    rewrite length_app. lia.
  - unfold valid_position, images_length; simpl. lia.
Qed.

End ImageIndex.

(** X6: on a state whose index is a valid position, [removeImage] with an
    id that no image carries changes nothing, and, when at most one image
    carries the id, removing it a second time changes nothing more. *)
Theorem removeImage_unknown_id (st : AnalysisState) (i : string) :
  valid_position st ->
  (id_count i (images st) = 0%nat -> removeImage st i = st)
  /\ ((id_count i (images st) <= 1)%nat ->
      removeImage (removeImage st i) i = removeImage st i).
Proof.
  intros Hvalid. split.
  - apply removeImage_unknown, Hvalid.
  - intros Hcount. apply removeImage_unknown.
    + apply removeImage_keeps_valid; assumption.
    + simpl. apply id_count_removed.
Qed.

Lemma removeImage_unknown_id_witness :
  valid_position two_image_state
  /\ removeImage two_image_state "c" = two_image_state
  /\ removeImage (removeImage two_image_state "b") "b"
     = removeImage two_image_state "b".
Proof.
  assert (Hv : valid_position two_image_state)
    by (left; unfold images_length; simpl; lia).
  split; [exact Hv|]. split.
  - exact (proj1 (removeImage_unknown_id two_image_state "c" Hv) eq_refl).
  - apply (proj2 (removeImage_unknown_id two_image_state "b" Hv)).
    vm_compute. lia.
Defined.

(** X7: [setImages] and [clearImages] make the index a valid position
    (position 0) whatever the state was, and every action other than
    [setCurrentImageIndex] and [removeImage] keeps a valid index valid, so
    the index is valid after every run of such actions from the initial
    state. *)
Theorem image_edits_keep_index_valid (st : AnalysisState)
    (payload : list ImageFile.t) (actions : list AnalysisAction) :
  Forall (fun a => index_safe a = true) actions ->
  valid_position (setImages st payload)
  /\ valid_position (clearImages st)
  /\ (valid_position st -> valid_position (addImages st payload))
  /\ (valid_position st -> valid_position (analysisRun st actions))
  /\ valid_position (analysisRun initialState actions).
Proof.
  intros Hsafe.
  assert (Hrun : forall s, valid_position s ->
                   valid_position (analysisRun s actions)).
  { induction Hsafe as [|a actions Ha _ IH]; intros s Hs; simpl; [exact Hs|].
    apply IH, reducer_keeps_valid; assumption. }
  split; [|split; [|split; [|split]]].
  - unfold valid_position, images_length; simpl. lia.
  - right. split; reflexivity.
  - apply (reducer_keeps_valid st (AddImages payload) eq_refl).
  - apply Hrun.
  - apply Hrun. right. split; reflexivity.
Qed.

Lemma image_edits_keep_index_valid_witness :
  Forall (fun a => index_safe a = true)
    [SetImages [image_with_id "a"]; AddImages [image_with_id "b"]; ClearImages]
  /\ valid_position
       (analysisRun initialState
          [SetImages [image_with_id "a"]; AddImages [image_with_id "b"];
           ClearImages]).
Proof.
  assert (Hsafe : Forall (fun a => index_safe a = true)
    [SetImages [image_with_id "a"]; AddImages [image_with_id "b"]; ClearImages])
    by (repeat constructor).
  split; [exact Hsafe|].
  exact (proj2 (proj2 (proj2 (proj2
           (image_edits_keep_index_valid initialState [] _ Hsafe))))).
Defined.

(** ** Further properties of the system slice *)

Section SystemRuns.

Implicit Types (st : SystemState) (a : SystemAction).

Lemma systemReducer_bounded st a :
  (length (notifications st) <= 10)%nat ->
  (length (notifications (systemReducer st a)) <= 10)%nat.
Proof.
  intros H. destruct a; try exact H.
  - simpl systemReducer. rewrite addNotification_slice, slice_last_length. lia.
  - simpl. lia.
Qed.

Lemma systemRun_bounded st (actions : list SystemAction) :
  (length (notifications st) <= 10)%nat ->
  (length (notifications (systemRun st actions)) <= 10)%nat.
Proof.
  revert st. induction actions as [|a actions IH]; intros st H; simpl; auto.
  apply IH, systemReducer_bounded, H.
Qed.

Lemma filter_length_le {A} (f : A -> bool) (l : list A) :
  (length (List.filter f l) <= length l)%nat.
Proof.
  induction l as [|x l IH]; simpl; [lia|]. destruct (f x); simpl; lia.
Qed.

End SystemRuns.

(** X8: in every state the system slice reaches from its initial state,
    whatever actions are dispatched, there are at most 10 notifications,
    and the badge of the layout, which counts the warnings and errors
    among them, shows at most 10. *)
Theorem notifications_always_bounded (actions : list SystemAction) :
  (length (notifications (systemRun systemInitialState actions)) <= 10)%nat
  /\ (unreadNotifications (systemRun systemInitialState actions)
      <= length (notifications (systemRun systemInitialState actions)))%nat
  /\ (unreadNotifications (systemRun systemInitialState actions) <= 10)%nat.
Proof.
  assert (H : (length (notifications (systemRun systemInitialState actions))
               <= 10)%nat) by (apply systemRun_bounded; simpl; lia).
  pose proof (filter_length_le is_unread
                (notifications (systemRun systemInitialState actions))) as Hf.
  unfold unreadNotifications. repeat split; lia.
Qed.

(** ** Further properties of the main process *)

Section StartupOutcome.

Implicit Types (s : MainState) (e : Event) (events : list Event).

Lemma settle_settled s outcome :
  settled s = true -> settle s outcome = s.
Proof.
  unfold settled, settle. destruct (backendStarted s) as [[]|]; try discriminate;
    reflexivity.
Qed.

Lemma handle_settled s e :
  settled s = true ->
  backendStarted (handle s e) = backendStarted s
  /\ windowCreated (handle s e) = windowCreated s.
Proof.
  intros Hs. destruct e; simpl; try (split; reflexivity).
  - unfold settled in Hs.
    destruct (backendStarted s) eqn:E; [|discriminate].
    rewrite E. split; reflexivity.
  - unfold settled in Hs.
    destruct (backendStarted s) eqn:E; [|discriminate].
    rewrite E. split; reflexivity.
  - destruct (includes _ _); [|split; reflexivity].
    rewrite settle_settled by exact Hs. split; reflexivity.
  - rewrite settle_settled by exact Hs. split; reflexivity.
  - destruct (timers s); [split; reflexivity|].
    rewrite settle_settled by exact Hs. split; reflexivity.
Qed.

Lemma run_settled s events :
  settled s = true ->
  backendStarted (run s events) = backendStarted s
  /\ windowCreated (run s events) = windowCreated s.
Proof.
  revert s. induction events as [|e events IH]; intros s Hs; simpl.
  - split; reflexivity.
  - destruct (handle_settled s e Hs) as [Hb Hw].
    destruct (IH (handle s e)) as [Hb' Hw'].
    + unfold settled in *. rewrite Hb. exact Hs.
    + split; congruence.
Qed.

(** The window is created by the continuation of the start-up wait, and
    by nothing else. *)
Lemma handle_window_iff_settled s e :
  windowCreated s = settled s ->
  windowCreated (handle s e) = settled (handle s e).
Proof.
  intros H. unfold settled in *.
  destruct e; simpl; try exact H.
  - destruct (backendStarted s) eqn:E; simpl; rewrite ?E; exact H.
  - destruct (backendStarted s) eqn:E; simpl; rewrite ?E;
      [exact H | reflexivity].
  - destruct (includes _ _); [|exact H].
    unfold settle. destruct (backendStarted s) as [[]|] eqn:E; simpl;
      rewrite ?E; try exact H; reflexivity.
  - unfold settle. destruct (backendStarted s) as [[]|] eqn:E; simpl;
      rewrite ?E; try exact H; reflexivity.
  - destruct (timers s); [exact H|].
    unfold settle; simpl. destruct (backendStarted s) as [[]|] eqn:E; simpl;
      rewrite ?E; try exact H; reflexivity.
Qed.

End StartupOutcome.

(** X9: the start-up wait is decided once. After the promise of
    [startBackend] has resolved or rejected, no later output, error, exit,
    timer or quit changes its outcome, and the window stays created. In
    particular an announcement that arrives after the timeout does not
    make the backend count as started. *)
Theorem startup_outcome_is_final (s : MainState) (events : list Event) :
  settled s = true ->
  backendStarted (run s events) = backendStarted s
  /\ windowCreated (run s events) = windowCreated s.
Proof. apply run_settled. Qed.

Lemma startup_outcome_is_final_witness :
  settled (run mainInitialState [AppReady true; TimerFired]) = true
  /\ backendStarted
       (run (run mainInitialState [AppReady true; TimerFired])
          [StdoutData " * Running on http://127.0.0.1:5000"])
     = Some (Resolved false).
Proof.
  split; [reflexivity|].
  exact (proj1 (startup_outcome_is_final
                  (run mainInitialState [AppReady true; TimerFired])
                  [StdoutData " * Running on http://127.0.0.1:5000"] eq_refl)).
Defined.

(** X10: in every state the main process reaches, the window, the menu
    and the IPC handlers exist exactly when the start-up wait is over:
    not before the promise of [startBackend] settles, and from then on. *)
Theorem window_exists_iff_startup_settled (events : list Event) :
  windowCreated (run mainInitialState events)
  = settled (run mainInitialState events).
Proof.
  assert (H : forall s, windowCreated s = settled s ->
                windowCreated (run s events) = settled (run s events)).
  { induction events as [|e events IH]; intros s Hs; simpl; [exact Hs|].
    apply IH, handle_window_iff_settled, Hs. }
  apply H. reflexivity.
Qed.

Section BackendStatus.

Implicit Types (s : MainState) (e : Event) (events : list Event).

Lemma handle_keeps_running s e :
  not_quitting e = true ->
  is_Some (backendStarted s) ->
  StatusAnswer.running (backendStatusAnswer s) = true ->
  is_Some (backendStarted (handle s e))
  /\ StatusAnswer.running (backendStatusAnswer (handle s e)) = true.
Proof.
  intros Hq Hs Hr. split; [apply handle_keeps_started, Hs|].
  unfold backendStatusAnswer in *. simpl in Hr.
  destruct e; simpl in *; try discriminate; try exact Hr.
  - destruct (backendStarted s) eqn:E; [exact Hr|].
    destruct Hs; discriminate.
  - destruct (backendStarted s) eqn:E; [exact Hr|].
    destruct Hs; discriminate.
  - destruct (includes _ _); [|exact Hr].
    unfold settle. destruct (backendStarted s) as [[]|]; exact Hr.
  - unfold settle. destruct (backendStarted s) as [[]|]; exact Hr.
  - destruct (backendProcess s); simpl in *; exact Hr.
  - destruct (timers s); [exact Hr|].
    unfold settle; simpl. destruct (backendStarted s) as [[]|]; exact Hr.
Qed.

Lemma run_keeps_running s events :
  Forall (fun e => not_quitting e = true) events ->
  is_Some (backendStarted s) ->
  StatusAnswer.running (backendStatusAnswer s) = true ->
  StatusAnswer.running (backendStatusAnswer (run s events)) = true.
Proof.
  intros Hq. revert s.
  induction Hq as [|e events He _ IH]; intros s Hs Hr; simpl; [exact Hr|].
  destruct (handle_keeps_running s e He Hs Hr) as [Hs' Hr'].
  apply IH; assumption.
Qed.

(** The signals delivered to the child: none until [kill()] has marked it
    killed, one SIGTERM from then on. *)
Lemma handle_signals s e :
  (forall p, backendProcess s = Some p ->
     ChildProcess.signals p
     = if ChildProcess.killed p then [SIGTERM] else []) ->
  forall p, backendProcess (handle s e) = Some p ->
    ChildProcess.signals p = if ChildProcess.killed p then [SIGTERM] else [].
Proof.
  intros Hinv p. destruct e; simpl; try apply Hinv.
  - destruct (backendStarted s); [apply Hinv|].
    simpl. intros [= <-]. reflexivity.
  - destruct (backendStarted s); apply Hinv.
  - destruct (includes _ _); [|apply Hinv].
    unfold settle. destruct (backendStarted s) as [[]|]; simpl; apply Hinv.
  - unfold settle. destruct (backendStarted s) as [[]|]; simpl; apply Hinv.
  - destruct (backendProcess s) as [q|] eqn:E; simpl; [|discriminate].
    intros [= <-]. simpl. apply Hinv. reflexivity.
  - destruct (timers s); [apply Hinv|].
    unfold settle; simpl. destruct (backendStarted s) as [[]|]; simpl; apply Hinv.
  - destruct (backendProcess s) as [q|] eqn:E; [|discriminate].
    specialize (Hinv q eq_refl).
    destruct (ChildProcess.killed q) eqn:Ek; simpl.
    + intros [= <-]. rewrite Ek. exact Hinv.
    + unfold ChildProcess.kill.
      destruct (ChildProcess.attached q) eqn:Ea; intros [= <-]; simpl.
      * rewrite Hinv. reflexivity.
      * rewrite Ek. exact Hinv.
Qed.

Lemma handle_quitting s e : isQuitting s = true -> isQuitting (handle s e) = true.
Proof.
  intros H. destruct e; simpl; try exact H; try reflexivity.
  - destruct (backendStarted s); exact H.
  - destruct (backendStarted s); exact H.
  - destruct (includes _ _); [|exact H].
    unfold settle. destruct (backendStarted s) as [[]|]; exact H.
  - unfold settle. destruct (backendStarted s) as [[]|]; exact H.
  - destruct (timers s); [exact H|].
    unfold settle; simpl. destruct (backendStarted s) as [[]|]; exact H.
Qed.

Lemma run_quitting s events : isQuitting s = true -> isQuitting (run s events) = true.
Proof.
  revert s. induction events as [|e events IH]; intros s H; simpl; auto.
  apply IH, handle_quitting, H.
Qed.

(** A main process that called [startBackend] without getting a child
    never has one. *)
Lemma handle_no_process s e :
  backendProcess s = None ->
  is_Some (backendStarted s) ->
  backendProcess (handle s e) = None.
Proof.
  intros Hp Hs. destruct e; simpl; try exact Hp.
  - destruct (backendStarted s); [exact Hp | destruct Hs; discriminate].
  - destruct (backendStarted s); [exact Hp | destruct Hs; discriminate].
  - destruct (includes _ _); [|exact Hp].
    unfold settle. destruct (backendStarted s) as [[]|]; exact Hp.
  - unfold settle. destruct (backendStarted s) as [[]|]; exact Hp.
  - rewrite Hp. reflexivity.
  - destruct (timers s); [exact Hp|].
    unfold settle; simpl. destruct (backendStarted s) as [[]|]; exact Hp.
  - rewrite Hp. reflexivity.
Qed.

Lemma run_no_process s events :
  backendProcess s = None ->
  is_Some (backendStarted s) ->
  backendProcess (run s events) = None.
Proof.
  revert s. induction events as [|e events IH]; intros s Hp Hs; simpl; auto.
  apply IH; [apply handle_no_process | apply handle_keeps_started]; assumption.
Qed.

End BackendStatus.

(** X11: once [spawn] has returned a child object and as long as the
    application is not quitting, the [backend:status] handler answers
    running, whatever happened to the process: a process that could not
    be attached, an error, an early exit or a start-up that timed out do
    not change the answer. When [spawn] threw, [backendProcess] stays
    [null] and the handler never answers running. *)
Theorem status_running_until_quit (spawned : bool)
    (events later : list Event) :
  Forall (fun e => not_quitting e = true) events ->
  StatusAnswer.running
    (backendStatusAnswer (run mainInitialState (AppReady spawned :: events)))
  = true
  /\ backendProcess (run mainInitialState (AppReadySpawnThrew :: later)) = None
  /\ StatusAnswer.running
       (backendStatusAnswer
          (run mainInitialState (AppReadySpawnThrew :: later)))
     = false.
Proof.
  intros Hq. split.
  - change (run mainInitialState (AppReady spawned :: events))
      with (run (handle mainInitialState (AppReady spawned)) events).
    apply run_keeps_running; [exact Hq | simpl; eauto | reflexivity].
  - change (run mainInitialState (AppReadySpawnThrew :: later))
      with (run (handle mainInitialState AppReadySpawnThrew) later).
    assert (H : backendProcess
                  (run (handle mainInitialState AppReadySpawnThrew) later)
                = None).
    { apply run_no_process; [reflexivity | simpl; eauto]. }
    unfold backendStatusAnswer. rewrite H. split; reflexivity.
Qed.

Lemma status_running_until_quit_witness :
  Forall (fun e => not_quitting e = true)
    [ProcessError; ProcessExit 1; TimerFired]
  /\ StatusAnswer.running
       (backendStatusAnswer
          (run mainInitialState
             [AppReady false; ProcessError; ProcessExit 1; TimerFired]))
     = true.
Proof.
  assert (Hq : Forall (fun e => not_quitting e = true)
    [ProcessError; ProcessExit 1; TimerFired]) by (repeat constructor).
  split; [exact Hq|].
  exact (proj1 (status_running_until_quit false _ [] Hq)).
Defined.

(** X12: in every run of the application the backend process receives
    at most one signal, a SIGTERM, and it has received it exactly when
    Node's [killed] flag is set, that is, exactly when [backend:status]
    answers not running for a process that was spawned. *)
Theorem backend_signalled_at_most_once (events : list Event)
    (p : ChildProcess.t) :
  backendProcess (run mainInitialState events) = Some p ->
  (length (ChildProcess.signals p) <= 1)%nat
  /\ (ChildProcess.signals p = [SIGTERM] <-> ChildProcess.killed p = true)
  /\ (ChildProcess.signals p = [SIGTERM]
      <-> StatusAnswer.running
            (backendStatusAnswer (run mainInitialState events)) = false).
Proof.
  assert (Hinv : forall s, 
            (forall q, backendProcess s = Some q ->
               ChildProcess.signals q
               = if ChildProcess.killed q then [SIGTERM] else []) ->
            forall q, backendProcess (run s events) = Some q ->
              ChildProcess.signals q
              = if ChildProcess.killed q then [SIGTERM] else []).
  { induction events as [|e events IH]; intros s Hs; simpl; [exact Hs|].
    apply IH, handle_signals, Hs. }
  intros Hp.
  pose proof (Hinv mainInitialState ltac:(discriminate) p Hp) as Hsig.
  unfold backendStatusAnswer. rewrite Hp. simpl.
  rewrite Hsig. destruct (ChildProcess.killed p); simpl.
  - repeat split; auto.
  - repeat split; auto; discriminate.
Qed.

Lemma backend_signalled_at_most_once_witness :
  backendProcess (run announcedState [BeforeQuit; BeforeQuit])
  = Some (ChildProcess.mk true true [SIGTERM])
  /\ (length (ChildProcess.signals (ChildProcess.mk true true [SIGTERM])) <= 1)%nat.
Proof.
  split; [reflexivity|].
  exact (proj1 (backend_signalled_at_most_once
                  [AppReady true;
                   StdoutData " * Running on http://127.0.0.1:5000";
                   BeforeQuit; BeforeQuit]
                  (ChildProcess.mk true true [SIGTERM]) eq_refl)).
Defined.

(** X13: a close request on the main window is prevented (the window is
    hidden instead) exactly on macOS while the application is not
    quitting, and then nothing else happens; on any other platform the
    window closes and the application quits through ['before-quit'].
    Once ['before-quit'] has run, no close request is prevented any
    more, on any platform and whatever events follow. *)
Theorem close_prevented_only_on_mac_before_quit (platform : Platform)
    (s : MainState) (events : list Event) :
  (closePrevented platform s = true
   <-> platform = darwin /\ isQuitting s = false)
  /\ (closePrevented platform s = true -> closeMainWindow platform s = s)
  /\ (platform <> darwin ->
      closeMainWindow platform s = handle s BeforeQuit)
  /\ closePrevented platform (run (handle s BeforeQuit) events) = false.
Proof.
  unfold closeMainWindow, windowAllClosed, closePrevented.
  split; [|split; [|split]].
  - destruct platform, (isQuitting s); simpl; split; intros H;
      try discriminate; try (destruct H; discriminate); auto.
  - intros H. rewrite H. reflexivity.
  - intros Hp. destruct platform; [contradiction| |];
      simpl; rewrite andb_false_r; reflexivity.
  - rewrite run_quitting by reflexivity. reflexivity.
Qed.

Lemma close_prevented_only_on_mac_before_quit_witness :
  closePrevented darwin announcedState = true
  /\ closeMainWindow darwin announcedState = announcedState
  /\ closeMainWindow linux announcedState = handle announcedState BeforeQuit.
Proof.
  split; [reflexivity|]. split.
  - exact (proj1 (proj2 (close_prevented_only_on_mac_before_quit
             darwin announcedState [])) eq_refl).
  - apply (proj1 (proj2 (proj2 (close_prevented_only_on_mac_before_quit
             linux announcedState [])))). discriminate.
Defined.

Section Marker.

Lemma prefix_spec (search text : string) :
  String.prefix search text = true <-> exists after, text = search +:+ after.
Proof.
  revert text. induction search as [|c search IH]; intros text.
  - split; [intros _; exists text; reflexivity|].
    intros _. destruct text; reflexivity.
  - destruct text as [|d text]; simpl.
    + split; [discriminate | intros [after H]; discriminate].
    + destruct (Ascii.ascii_dec c d) as [-> | Hne].
      * rewrite IH. split.
        -- intros [after ->]. exists after. reflexivity.
        -- intros [after [= ->]]. exists after. reflexivity.
      * split; [discriminate|]. intros [after [= Hcd _]]. congruence.
Qed.

Lemma includes_spec (search text : string) :
  includes search text = true
  <-> exists before after, text = before +:+ search +:+ after.
Proof.
  split.
  - induction text as [|c text IH]; cbn [includes]; rewrite orb_true_iff.
    + intros [H | H]; [|discriminate].
      apply prefix_spec in H as [after ->]. exists ""%string, after. reflexivity.
    + intros [H | H].
      * apply prefix_spec in H as [after ->]. exists ""%string, after. reflexivity.
      * destruct (IH H) as (before & after & ->).
        exists (String c before), after. reflexivity.
  - intros (before & after & ->).
    induction before as [|c before IH].
    + assert (H : String.prefix search (search +:+ after) = true)
        by (apply prefix_spec; eauto).
      change (""%string +:+ search +:+ after) with (search +:+ after).
      destruct (search +:+ after); cbn [includes]; rewrite H; reflexivity.
    + change (String c before +:+ search +:+ after)
        with (String c (before +:+ search +:+ after)).
      cbn [includes]. rewrite IH. apply orb_true_r.
Qed.

End Marker.

(** X14: while the start-up is pending, a chunk of standard output marks
    the backend as started exactly when the text "Running on" occurs in
    it, at any position; a chunk in which it does not occur leaves the
    state as it was, so an announcement cut in two by the chunk boundary
    goes unnoticed. *)
Theorem stdout_marker_anywhere (s : MainState) (data : string) :
  backendStarted s = Some Pending ->
  (backendStarted (handle s (StdoutData data)) = Some (Resolved true)
   <-> exists before after, data = before +:+ "Running on" +:+ after)
  /\ ((forall before after, data <> before +:+ "Running on" +:+ after) ->
      handle s (StdoutData data) = s).
Proof.
  intros Hp. rewrite <- includes_spec. simpl.
  destruct (includes "Running on" data) eqn:E.
  - split.
    + unfold settle. rewrite Hp. simpl. split; reflexivity.
    + intros Hnone. exfalso.
      apply includes_spec in E as (before & after & ->).
      exact (Hnone before after eq_refl).
  - split; [|reflexivity]. rewrite Hp. split; discriminate.
Qed.

Lemma stdout_marker_anywhere_witness :
  backendStarted (handle mainInitialState (AppReady true)) = Some Pending
  /\ backendStarted
       (handle (handle mainInitialState (AppReady true))
          (StdoutData (" * " +:+ "Running on" +:+ " http://127.0.0.1:5000")))
     = Some (Resolved true).
Proof.
  split; [reflexivity|].
  apply (proj1 (stdout_marker_anywhere
                  (handle mainInitialState (AppReady true))
                  (" * " +:+ "Running on" +:+ " http://127.0.0.1:5000")
                  eq_refl)).
  exists " * "%string, " http://127.0.0.1:5000"%string. reflexivity.
Defined.

(** ** Properties of the preload script *)

Section PreloadFacts.

Implicit Types (p : Preload.t) (c : ApiCall) (calls : list ApiCall)
  (reg : Registrations) (x : string * Listener).

Local Arguments array_includes : simpl never.

Lemma remove_first_absent x reg : x ∉ reg -> remove_first x reg = reg.
Proof.
  induction reg as [|y reg IH]; intros Hnot; simpl; [reflexivity|].
  apply not_elem_of_cons in Hnot as [Hne Hnot].
  destruct (decide (y = x)); [congruence|]. rewrite IH by exact Hnot. reflexivity.
Qed.

Lemma remove_first_elem x y reg : y ∈ remove_first x reg -> y ∈ reg.
Proof.
  induction reg as [|z reg IH]; simpl; [auto|].
  destruct (decide (z = x)).
  - intros H. right. exact H.
  - intros H. apply elem_of_cons in H as [-> | H]; [left | right; auto].
Qed.

Lemma remove_first_length x reg :
  length (remove_first x reg)
  = if decide (x ∈ reg) then pred (length reg) else length reg.
Proof.
  induction reg as [|y reg IH].
  - case_decide as H; [inversion H | reflexivity].
  - cbn [remove_first]. destruct (decide (y = x)) as [-> | Hne].
    + clear IH. case_decide as Hn; [reflexivity|]. exfalso. apply Hn. left.
    + cbn [length]. rewrite IH. clear IH.
      destruct (decide (x ∈ reg)) as [Hin | Hin].
      * assert (Hin' : x ∈ y :: reg) by (right; exact Hin).
        rewrite !decide_True by assumption.
        destruct reg; [inversion Hin | reflexivity].
      * assert (Hin' : x ∉ y :: reg).
        { intros H. apply elem_of_cons in H as [-> | H];
            [congruence | contradiction]. }
        rewrite !decide_False by assumption. reflexivity.
Qed.

Lemma remove_first_filter (f : string * Listener -> bool) x reg :
  f x = false ->
  List.filter f (remove_first x reg) = List.filter f reg.
Proof.
  intros Hf. induction reg as [|y reg IH]; simpl; [reflexivity|].
  destruct (decide (y = x)) as [-> | Hne].
  - rewrite Hf. reflexivity.
  - simpl. rewrite IH. reflexivity.
Qed.

Lemma filter_reverse {A} (f : A -> bool) (l : list A) :
  List.filter f (reverse l) = reverse (List.filter f l).
Proof.
  induction l as [|x l IH]; simpl; [reflexivity|].
  rewrite reverse_cons, List.filter_app, IH. simpl.
  destruct (f x); [rewrite reverse_cons | rewrite app_nil_r]; reflexivity.
Qed.

Lemma ipcRemoveListener_absent channel (l : Listener) reg :
  (channel, l) ∉ reg -> ipcRemoveListener channel l reg = reg.
Proof.
  intros Hnot. unfold ipcRemoveListener.
  rewrite remove_first_absent by (rewrite elem_of_reverse; exact Hnot).
  apply reverse_involutive.
Qed.

Lemma ipcRemoveListener_after_on channel (l : Listener) reg :
  ipcRemoveListener channel l (ipcOn channel l reg) = reg.
Proof.
  unfold ipcRemoveListener, ipcOn.
  rewrite reverse_app. simpl.
  destruct (decide ((channel, l) = (channel, l))); [|congruence].
  apply reverse_involutive.
Qed.

Lemma ipcRemoveListener_elem channel (l : Listener) reg x :
  x ∈ ipcRemoveListener channel l reg -> x ∈ reg.
Proof.
  unfold ipcRemoveListener. rewrite elem_of_reverse.
  intros H. apply remove_first_elem in H. rewrite elem_of_reverse in H. exact H.
Qed.

Lemma ipcRemoveListener_length channel (l : Listener) reg :
  length (ipcRemoveListener channel l reg)
  = if decide ((channel, l) ∈ reg) then pred (length reg) else length reg.
Proof.
  unfold ipcRemoveListener.
  rewrite length_reverse, remove_first_length, length_reverse.
  destruct (decide ((channel, l) ∈ reg)) as [Hin | Hin].
  - rewrite !decide_True; try reflexivity;
      rewrite ?elem_of_reverse; exact Hin.
  - rewrite !decide_False; try reflexivity;
      rewrite ?elem_of_reverse; exact Hin.
Qed.

Lemma listeners_other_removed channel other (l : Listener) reg :
  other <> channel ->
  listeners channel (ipcRemoveListener other l reg) = listeners channel reg.
Proof.
  intros Hne. unfold listeners, ipcRemoveListener.
  rewrite filter_reverse, remove_first_filter, filter_reverse, reverse_involutive;
    [reflexivity|].
  simpl. apply String.eqb_neq. exact Hne.
Qed.

Lemma listeners_on channel other (l : Listener) reg :
  listeners channel (ipcOn other l reg)
  = listeners channel reg ++ (if String.eqb other channel then [l] else []).
Proof.
  unfold listeners, ipcOn. rewrite List.filter_app, map_app. simpl.
  destruct (String.eqb other channel); reflexivity.
Qed.

Lemma menuChannel_not_received (m : MenuEvent) :
  array_includes (menuChannel m) validReceiveChannels = false.
Proof. destruct m; reflexivity. Qed.

Lemma array_includes_spec (x : string) (l : list string) :
  array_includes x l = true <-> x ∈ l.
Proof.
  unfold array_includes. rewrite existsb_exists. split.
  - intros (y & Hy & Heq). apply String.eqb_eq in Heq as ->.
    apply list_elem_of_In, Hy.
  - intros H. exists x. split; [apply list_elem_of_In, H | apply String.eqb_refl].
Qed.

Lemma apiCall_only_wrappers p c :
  only_wrappers (Preload.registrations p) ->
  only_wrappers (Preload.registrations (apiCall p c)).
Proof.
  unfold only_wrappers. intros Hinv.
  destruct c as [m f | m f | ch f | ch f | ch data]; simpl.
  - intros channel l Hin Hvalid. unfold ipcOn in Hin.
    apply elem_of_app in Hin as [Hin | Hin]; [eauto|].
    apply list_elem_of_singleton in Hin as [= -> ->].
    rewrite menuChannel_not_received in Hvalid. discriminate.
  - intros channel l Hin. apply ipcRemoveListener_elem in Hin. eauto.
  - destruct (array_includes ch validReceiveChannels); simpl; [|exact Hinv].
    intros channel l Hin Hvalid. unfold ipcOn in Hin.
    apply elem_of_app in Hin as [Hin | Hin]; [eauto|].
    apply list_elem_of_singleton in Hin as [= -> ->]. eauto.
  - destruct (array_includes ch validReceiveChannels); simpl; [|exact Hinv].
    intros channel l Hin. apply ipcRemoveListener_elem in Hin. eauto.
  - destruct (array_includes ch validSendChannels); simpl; exact Hinv.
Qed.

Lemma apiCall_listeners p c channel :
  array_includes channel validReceiveChannels = true ->
  only_wrappers (Preload.registrations p) ->
  listeners channel (Preload.registrations (apiCall p c))
  = listeners channel (Preload.registrations p)
    ++ (match c with
        | UtilsOn ch f => if registers_on channel c then [Wrapping f] else []
        | _ => []
        end).
Proof.
  intros Hvalid Hinv.
  destruct c as [m f | m f | ch f | ch f | ch data]; simpl.
  - rewrite listeners_on.
    destruct (String.eqb_spec (menuChannel m) channel) as [Heq | _];
      [|reflexivity].
    rewrite <- Heq, menuChannel_not_received in Hvalid. discriminate.
  - rewrite app_nil_r. apply listeners_other_removed.
    intros Heq. rewrite <- Heq, menuChannel_not_received in Hvalid. discriminate.
  - destruct (array_includes ch validReceiveChannels) eqn:E; simpl.
    + rewrite listeners_on, andb_true_r. reflexivity.
    + rewrite andb_false_r, app_nil_r. reflexivity.
  - rewrite app_nil_r.
    destruct (array_includes ch validReceiveChannels) eqn:E; simpl; [|reflexivity].
    rewrite ipcRemoveListener_absent; [reflexivity|].
    intros Hin. destruct (Hinv ch (Given f) Hin E) as [g Hg]. discriminate.
  - rewrite app_nil_r.
    destruct (array_includes ch validSendChannels); reflexivity.
Qed.

Lemma apiRun_listeners calls p channel :
  array_includes channel validReceiveChannels = true ->
  only_wrappers (Preload.registrations p) ->
  length (listeners channel (Preload.registrations (apiRun p calls)))
  = (length (listeners channel (Preload.registrations p))
     + length (List.filter (registers_on channel) calls))%nat.
Proof.
  intros Hvalid. revert p.
  induction calls as [|c calls IH]; intros p Hinv; simpl; [lia|].
  rewrite IH by (apply apiCall_only_wrappers, Hinv).
  rewrite apiCall_listeners by assumption.
  rewrite length_app.
  destruct c as [m f | m f | ch f | ch f | ch data]; simpl; try lia.
  destruct (String.eqb ch channel && array_includes ch validReceiveChannels);
    simpl; lia.
Qed.

Lemma apiRun_sent calls p :
  Preload.sent (apiRun p calls) = Preload.sent p ++ omap message_of calls.
Proof.
  revert p. induction calls as [|c calls IH]; intros p; simpl.
  - rewrite app_nil_r. reflexivity.
  - rewrite IH. destruct c as [m f | m f | ch f | ch f | ch data]; simpl;
      try reflexivity.
    + destruct (array_includes ch validReceiveChannels); reflexivity.
    + destruct (array_includes ch validReceiveChannels); reflexivity.
    + destruct (array_includes ch validSendChannels); simpl;
        [rewrite <- app_assoc|]; reflexivity.
Qed.

Lemma apiRun_only_wrappers calls p :
  only_wrappers (Preload.registrations p) ->
  only_wrappers (Preload.registrations (apiRun p calls)).
Proof.
  revert p. induction calls as [|c calls IH]; intros p H; simpl; [exact H|].
  apply IH, apiCall_only_wrappers, H.
Qed.

Lemma message_of_valid c (m : string * string) :
  message_of c = Some m -> m.1 ∈ validSendChannels.
Proof.
  destruct c as [? ? | ? ? | ? ? | ? ? | ch data]; simpl; try discriminate.
  destruct (array_includes ch validSendChannels) eqn:E; [|discriminate].
  intros [= <-]. simpl. apply array_includes_spec, E.
Qed.

End PreloadFacts.

(** X15: whatever the renderer calls, the messages that [utils.send] puts
    on the wire are exactly the ones sent on 'analyze-image',
    'export-report' or 'load-history', in the order of the calls; a call
    on any other channel sends nothing. *)
Theorem send_only_on_valid_channels (calls : list ApiCall) :
  Preload.sent (apiRun preloadInitial calls) = omap message_of calls
  /\ Forall (fun m => m.1 ∈ validSendChannels)
       (Preload.sent (apiRun preloadInitial calls)).
Proof.
  rewrite apiRun_sent. simpl. split; [reflexivity|].
  apply Forall_forall. intros m Hm.
  apply list_elem_of_omap in Hm as (c & _ & Hc).
  exact (message_of_valid c m Hc).
Qed.

(** X16: the function returned by a function of [menu] undoes the
    subscription: subscribing and then unsubscribing leaves the listeners
    as they were. Unsubscribing a callback that is not subscribed changes
    nothing, and an unsubscription removes at most one registration. *)
Theorem menu_subscription_round_trip (p : Preload.t) (m : MenuEvent)
    (f : nat) :
  apiCall (apiCall p (MenuSubscribe m f)) (MenuUnsubscribe m f) = p
  /\ ((menuChannel m, Given f) ∉ Preload.registrations p ->
      apiCall p (MenuUnsubscribe m f) = p)
  /\ (length (Preload.registrations p)
      <= S (length (Preload.registrations
                      (apiCall p (MenuUnsubscribe m f)))))%nat.
Proof.
  destruct p as [reg sent]. simpl. split; [|split].
  - rewrite ipcRemoveListener_after_on. reflexivity.
  - intros Hnot. rewrite ipcRemoveListener_absent by exact Hnot. reflexivity.
  - rewrite ipcRemoveListener_length.
    destruct (decide ((menuChannel m, Given f) ∈ reg)); lia.
Qed.

Lemma menu_subscription_round_trip_witness :
  ((menuChannel onShowAbout, Given 7%nat)
     ∉ Preload.registrations
         (apiCall preloadInitial (MenuSubscribe onLoadImages 7%nat)))
  /\ apiCall (apiCall preloadInitial (MenuSubscribe onLoadImages 7%nat))
       (MenuUnsubscribe onShowAbout 7%nat)
     = apiCall preloadInitial (MenuSubscribe onLoadImages 7%nat).
Proof.
  assert (Hnot : (menuChannel onShowAbout, Given 7%nat)
            ∉ Preload.registrations
                (apiCall preloadInitial (MenuSubscribe onLoadImages 7%nat))).
  { simpl. intros H. apply list_elem_of_singleton in H. discriminate H. }
  split; [exact Hnot|].
  exact (proj1 (proj2 (menu_subscription_round_trip
           (apiCall preloadInitial (MenuSubscribe onLoadImages 7%nat))
           onShowAbout 7%nat)) Hnot).
Defined.

(** X17: [utils.on] registers a wrapper around the callback, and the
    function it returns asks to remove the callback itself, which is not
    registered: calling it changes nothing. On each of 'analysis-result',
    'export-complete' and 'history-loaded' the number of listeners is the
    number of [utils.on] calls made for it, whatever was unsubscribed in
    between; on any other channel [utils.on] registers nothing. *)
Theorem utils_on_listeners_stay (calls : list ApiCall) (channel : string)
    (f : nat) :
  (array_includes channel validReceiveChannels = true ->
   length (listeners channel
             (Preload.registrations (apiRun preloadInitial calls)))
   = length (List.filter (registers_on channel) calls)
   /\ apiCall (apiRun preloadInitial calls) (UtilsOff channel f)
      = apiRun preloadInitial calls)
  /\ (array_includes channel validReceiveChannels = false ->
      apiCall (apiRun preloadInitial calls) (UtilsOn channel f)
      = apiRun preloadInitial calls
      /\ apiCall (apiRun preloadInitial calls) (UtilsOff channel f)
         = apiRun preloadInitial calls).
Proof.
  assert (Hinit : only_wrappers (Preload.registrations preloadInitial)).
  { intros ch l H. inversion H. }
  split.
  - intros Hvalid. split.
    + rewrite apiRun_listeners by assumption. reflexivity.
    + pose proof (apiRun_only_wrappers calls preloadInitial Hinit) as Hinv.
      destruct (apiRun preloadInitial calls) as [reg sent].
      cbn [apiCall Preload.registrations Preload.sent] in *.
      rewrite Hvalid. rewrite ipcRemoveListener_absent; [reflexivity|].
      intros Hin. destruct (Hinv channel (Given f) Hin Hvalid) as [g Hg].
      discriminate.
  - intros Hinvalid. cbn [apiCall]. rewrite Hinvalid. split; reflexivity.
Qed.

Lemma utils_on_listeners_stay_witness :
  array_includes "analysis-result" validReceiveChannels = true
  /\ listeners "analysis-result"
       (Preload.registrations
          (apiRun preloadInitial
             [UtilsOn "analysis-result" 3%nat; UtilsOff "analysis-result" 3%nat]))
     = [Wrapping 3%nat]
  /\ length (listeners "analysis-result"
               (Preload.registrations
                  (apiRun preloadInitial
                     [UtilsOn "analysis-result" 3%nat;
                      UtilsOff "analysis-result" 3%nat])))
     = 1%nat.
Proof.
  split; [reflexivity|]. split; [reflexivity|].
  exact (proj1 (proj1 (utils_on_listeners_stay
           [UtilsOn "analysis-result" 3%nat; UtilsOff "analysis-result" 3%nat]
           "analysis-result" 3%nat) eq_refl)).
Defined.
